(** * The Kafka event stream of sentry: publisher and relay loop

    A shallow embedding of [src/sentry/eventstream/kafka/backend.py]
    ([KafkaEventStream]) and the properties of its two halves:
    [publish], which hands one versioned envelope to the producing
    client, and [relay], which consumes the topic, dispatches
    post-processing and commits offsets in batches.

    Python integers are [Z]; [str] values are [string] (read as the UTF-8
    bytes of the text); dictionaries that are serialized are association
    lists with unique keys; the offset dictionary of the relay is a
    [gmap]. Exceptions are the [inl] side of a sum. *)

From Stdlib Require Import ZArith List Bool Strings.Byte.
From stdpp Require Import gmap strings list fin_maps pretty.

Open Scope Z_scope.

Set Warnings "-register-all".

(** ** Python values, exceptions and log records *)

Record KafkaError := { ke_code : Z; ke_str : string }.

(** The values that flow into [json.dumps]. *)
Inductive pyvalue :=
| PNone
| PBool (b : bool)
| PInt (z : Z)
| PStr (s : string)
| PDatetime (epoch : Z)
| PTuple (items : list pyvalue)
| PDict (entries : list (string * pyvalue)).

Abbreviation pydict := (list (string * pyvalue)).

(** [d[k] = v] on a dictionary kept as an association list. *)
Fixpoint dict_setitem (k : string) (v : pyvalue) (d : pydict) : pydict :=
  match d with
  | [] => [(k, v)]
  | (k', v') :: d' =>
      if String.eqb k k' then (k, v) :: d' else (k', v') :: dict_setitem k v d'
  end.

(** [dict(items)]: later pairs win. *)
Definition dict_of_items (items : list (string * pyvalue)) : pydict :=
  fold_left (fun d kv => dict_setitem (fst kv) (snd kv) d) items [].

(** The exception classes the module can see. Only [KeyboardInterrupt] is
    outside the [Exception] hierarchy. *)
Inductive exn :=
| KeyboardInterrupt
| PyException (arg : KafkaError)
| TypeError (msg : string)
| ValueError (msg : string)
| BufferError (msg : string)
| KafkaException (err : KafkaError)
| KeyError (key : string)
| OverflowError (msg : string)
| ZeroDivisionError.

Definition is_Exception (e : exn) : bool :=
  match e with
  | KeyboardInterrupt => false
  | _ => true
  end.

(** An exception of the [Exception] hierarchy, as a call into a library
    raises it. *)
Record library_error := {
  raised : exn;
  raised_is_Exception : is_Exception raised = true
}.

(** A message of the log, as the consumer and the delivery reports show
    it. *)
Record kmessage := {
  m_error : option KafkaError;
  m_topic : string;
  m_partition : Z;
  m_offset : Z;
  m_key : list byte;
  m_value : string
}.

Inductive log_level := INFO | WARNING.

Inductive log_arg :=
| ArgExn (e : exn)
| ArgError (e : KafkaError)
| ArgMessage (m : kmessage).

Record log_record := {
  lr_level : log_level;
  lr_format : string;
  lr_args : list log_arg;
  lr_exc_info : bool
}.

Definition EVENT_PROTOCOL_VERSION : Z := 1.

(** ** The event stream object *)

Record KafkaEventStream := {
  publish_topic : string;
  producer_configuration : gmap string string
}.

(** [__init__(self, publish_topic='events', producer_configuration=None)] *)
Definition init (publish_topic : option string)
    (producer_configuration : option (gmap string string)) : KafkaEventStream :=
  {| publish_topic := default "events"%string publish_topic;
     producer_configuration := default ∅ producer_configuration |}.

Record Project := { organization_id : Z }.

Record Event := {
  project : Project;
  project_id : Z;
  event_id : string;
  group_id : pyvalue;
  message : pyvalue;
  platform : pyvalue;
  datetime : pyvalue;
  data : list (string * pyvalue)
}.

(** ** The producing client

        [confluent_kafka.Producer] is a collaborator: the constructor gives a
    producer or raises on a configuration it refuses, [poll] hands back
    the delivery reports that are due, [produce] enqueues or raises. *)

Abbreviation delivery_report := (option KafkaError * kmessage)%type.

Class ProducerClient (P : Type) := {
    producer_new : gmap string string -> exn + P;
  producer_poll : P -> list delivery_report * P;
  producer_produce : P -> string -> list byte -> string -> exn + P
}.

Module Publisher.
Section WithCollaborators.

Context {P : Type} `{ProducerClient P}.
(** [quotas.get_event_retention(organization=Organization(id))] *)
Variable get_event_retention : Z -> pyvalue.
(** [sentry.utils.json.dumps] *)
Variable json_dumps : pyvalue -> exn + string.

(** What a call can change: the cached producer and the log. *)
Record world := {
    w_producer : option P;
    w_log : list log_record
  }.

Definition M (A : Type) : Type := world -> (exn + A) * world.

Definition ret {A} (a : A) : M A := fun w => (inr a, w).

Definition bind {A B} (c : M A) (k : A -> M B) : M B :=
    fun w => match c w with
             | (inl e, w') => (inl e, w')
             | (inr a, w') => k a w'
             end.

Definition raise {A} (e : exn) : M A := fun w => (inl e, w).

(** [try: c except Exception as error: h(error); raise] *)
Definition try_except_reraise {A} (c : M A) (h : exn -> M unit) : M A :=
    fun w => match c w with
             | (inl e, w') =>
                 if is_Exception e
                 then match h e w' with
                      | (inl e', w'') => (inl e', w'')
                      | (inr _, w'') => (inl e, w'')
                      end
                 else (inl e, w')
             | (inr a, w') => (inr a, w')
             end.

Definition lift_exn {A} (r : exn + A) : M A := fun w => (r, w).

Definition logger_warning (fmt : string) (args : list log_arg)
      (exc_info : bool) : M unit :=
    fun w => (inr tt,
              {| w_producer := w_producer w;
                 w_log := w_log w ++
                   [{| lr_level := WARNING; lr_format := fmt;
                       lr_args := args; lr_exc_info := exc_info |}] |}).

(** The cached property [producer]: built on first use, and cached only
    when the constructor returns. *)
Definition producer (self : KafkaEventStream) : M P :=
    fun w => match w_producer w with
             | Some p => (inr p, w)
             | None =>
                 match producer_new (producer_configuration self) with
                 | inl e => (inl e, w)
                 | inr p => (inr p, {| w_producer := Some p; w_log := w_log w |})
                 end
             end.

Definition set_producer (p : P) : M unit :=
    fun w => (inr tt, {| w_producer := Some p; w_log := w_log w |}).

Definition delivery_callback (self : KafkaEventStream)
      (error : option KafkaError) (message : kmessage) : M unit :=
    match error with
    | Some e =>
        logger_warning "Could not publish event (error: %s): %r"
          [ArgError e; ArgMessage message] false
    | None => ret tt
    end.

(** The callbacks fired by one [poll]. *)
Fixpoint fire_callbacks (self : KafkaEventStream)
      (reports : list delivery_report) : M unit :=
    match reports with
    | [] => ret tt
    | (error, message) :: rest =>
        bind (delivery_callback self error message)
             (fun _ => fire_callbacks self rest)
    end.

(** [self.producer.poll(0.0)] *)
Definition poll_producer (self : KafkaEventStream) : M unit :=
    bind (producer self) (fun p =>
      let '(reports, p') := producer_poll p in
      bind (set_producer p') (fun _ => fire_callbacks self reports)).

(** ['%s:%s' % (event.project_id, event.event_id)] *)
Definition message_key (event : Event) : string :=
    pretty (project_id event) +:+ ":" +:+ event_id event.

Definition encode_utf8 (s : string) : list byte :=
    String.list_byte_of_string s.

Definition event_record (event : Event) (primary_hash retention_days : pyvalue)
      : pydict :=
    [ ("group_id"%string, group_id event);
      ("event_id"%string, PStr (event_id event));
      ("organization_id"%string, PInt (organization_id (project event)));
      ("project_id"%string, PInt (project_id event));
      ("message"%string, message event);
      ("platform"%string, platform event);
      ("datetime"%string, datetime event);
      ("data"%string, PDict (dict_of_items (data event)));
      ("primary_hash"%string, primary_hash);
      ("retention_days"%string, retention_days) ].

Definition state_record
      (is_new is_sample is_regression is_new_group_environment : bool) : pydict :=
    [ ("is_new"%string, PBool is_new);
      ("is_sample"%string, PBool is_sample);
      ("is_regression"%string, PBool is_regression);
      ("is_new_group_environment"%string, PBool is_new_group_environment) ].

Definition envelope (event : Event)
      (is_new is_sample is_regression is_new_group_environment : bool)
      (primary_hash retention_days : pyvalue) : pyvalue :=
    PTuple [ PInt EVENT_PROTOCOL_VERSION; PStr "insert";
             PDict (event_record event primary_hash retention_days);
             PDict (state_record is_new is_sample is_regression
                      is_new_group_environment) ].

Definition publish (self : KafkaEventStream) (group : pyvalue) (event : Event)
      (is_new is_sample is_regression is_new_group_environment : bool)
      (primary_hash : pyvalue) (skip_consume : option bool) : M unit :=
    let skip_consume := default false skip_consume in
    let project := project event in
    let retention_days := get_event_retention (organization_id project) in
    bind (poll_producer self) (fun _ =>
    try_except_reraise
      (let key := message_key event in
       let value := envelope event is_new is_sample is_regression
                      is_new_group_environment primary_hash retention_days in
       bind (lift_exn (json_dumps value)) (fun encoded =>
       bind (producer self) (fun p =>
       bind (lift_exn (producer_produce p (publish_topic self)
                         (encode_utf8 key) encoded)) (fun p' =>
       set_producer p'))))
      (fun error =>
         logger_warning "Could not publish event: %s" [ArgExn error] true)).

End WithCollaborators.
End Publisher.

(** ** The relay loop

        [SynchronizedConsumer], [TopicPartition], [parse_event_message] and
    [post_process_group.delay] are collaborators. What the consumer hands
    back is the input of the loop: a script of [poll] results, one per
    iteration of [while True]. An interrupt arrives while the loop waits
    in [poll]. What the loop asks of its collaborators is recorded, in
    order, as a list of [effect]s; a commit is recorded when
    [consumer.commit] is called, whether it then returns or raises. *)

Record TopicPartition := {
  tp_topic : string;
  tp_partition : Z;
  tp_offset : Z
}.

Inductive poll_result :=
| PollNone
| PollMessage (m : kmessage)
| PollKeyboardInterrupt.

Inductive effect :=
| SynchronizedConsumer
    (bootstrap_servers consumer_group commit_log_topic
       synchronize_commit_group : string)
| Subscribe (topic : string)
| Commit (offsets : list TopicPartition) (asynchronous : bool)
| Delay (payload : pydict)
| LogInfo (msg : string)
| Close.

Record relay_state := {
  rs_i : Z;
  rs_offsets : gmap (string * Z) Z;
  rs_trace : list effect
}.

(** How the [while True] loop can be left; [Polling] is a loop that has
    used up the script and waits for the next message. *)
Inductive loop_exit :=
| Interrupted
| Raised (e : exn)
| Polling.

Inductive relay_result :=
| Returned
| Propagated (e : exn)
| StillPolling.

Module Relay.
Section WithCollaborators.

(** [sentry.eventstream.kafka.protocol.parse_event_message] *)
Variable parse_event_message : string -> option pydict.
(** [TopicPartition(topic, partition, offset)]: the exception it raises on
    arguments it refuses, if any. *)
Variable topic_partition_error : string -> Z -> Z -> option library_error.
(** [consumer.commit(offsets=..., asynchronous=False)]: the exception it
    raises, if any, given what was asked of the collaborators before. *)
Variable commit_error : list effect -> list TopicPartition -> option library_error.

(** The argument list of [consumer.commit] built by [commit_offsets]. *)
Definition offsets_items (offsets : gmap (string * Z) Z) : list TopicPartition :=
    map (fun item =>
           {| tp_topic := fst (fst item);
              tp_partition := snd (fst item);
              tp_offset := snd item |})
        (map_to_list offsets).

(** The first exception raised while that list is built. *)
Fixpoint first_position_error (items : list (string * Z * Z))
      : option library_error :=
    match items with
    | [] => None
    | item :: rest =>
        match topic_partition_error (fst (fst item)) (snd (fst item)) (snd item) with
        | Some e => Some e
        | None => first_position_error rest
        end
    end.

(** [commit_offsets()]: the exception that leaves it, if any, and the
    trace, extended by the commit if the call was reached. *)
Definition commit_offsets (offsets : gmap (string * Z) Z) (trace : list effect)
      : option exn * list effect :=
    match first_position_error (map_to_list offsets) with
    | Some e => (Some (raised e), trace)
    | None =>
        (raised <$> commit_error trace (offsets_items offsets),
         trace ++ [Commit (offsets_items offsets) false])
    end.

(** The body of the loop for a message that [poll] returned. The state
      that comes back with an exception is the state at the [raise]. *)
Definition handle_message (commit_batch_size : Z) (message : kmessage)
      (st : relay_state) : option exn * relay_state :=
    match m_error message with
    | Some error => (Some (PyException error), st)
    | None =>
        let i := rs_i st + 1 in
        let offsets :=
          <[(m_topic message, m_partition message) := m_offset message + 1]>
            (rs_offsets st) in
        let trace :=
          match parse_event_message (m_value message) with
          | Some payload => rs_trace st ++ [Delay payload]
          | None => rs_trace st
          end in
        if commit_batch_size =? 0
        then (Some ZeroDivisionError,
              {| rs_i := i; rs_offsets := offsets; rs_trace := trace |})
        else if i mod commit_batch_size =? 0
        then (fst (commit_offsets offsets trace),
              {| rs_i := i; rs_offsets := offsets;
                 rs_trace := snd (commit_offsets offsets trace) |})
        else (None,
              {| rs_i := i; rs_offsets := offsets; rs_trace := trace |})
    end.

(** The [while True] loop inside [try: ... except KeyboardInterrupt: pass]:
    an interrupt leaves it quietly wherever it is raised, any other
    exception goes through. *)
Fixpoint relay_loop (commit_batch_size : Z) (polls : list poll_result)
      (st : relay_state) : loop_exit * relay_state :=
    match polls with
    | [] => (Polling, st)
    | PollNone :: rest => relay_loop commit_batch_size rest st
    | PollKeyboardInterrupt :: _ => (Interrupted, st)
    | PollMessage message :: rest =>
        match handle_message commit_batch_size message st with
        | (Some KeyboardInterrupt, st') => (Interrupted, st')
        | (Some e, st') => (Raised e, st')
        | (None, st') => relay_loop commit_batch_size rest st'
        end
    end.

(** The state on entry to the loop: the consumer is built and
      subscribed, [offsets = {}] and [i = 0]. *)
Definition relay_start (self : KafkaEventStream)
      (servers consumer_group commit_log_topic synchronize_commit_group : string)
      : relay_state :=
    {| rs_i := 0;
       rs_offsets := ∅;
       rs_trace :=
         [ SynchronizedConsumer servers consumer_group commit_log_topic
             synchronize_commit_group;
           Subscribe (publish_topic self) ] |}.

(** [if offsets:] *)
Definition dict_truth (offsets : gmap (string * Z) Z) : bool :=
    match map_to_list offsets with
    | [] => false
    | _ :: _ => true
    end.

(** [relay]: the final [commit_offsets()] and the close come after the
    [try], unprotected: an exception of the final commit goes through and
    skips the close. *)
Definition relay (self : KafkaEventStream)
      (consumer_group commit_log_topic synchronize_commit_group : string)
      (commit_batch_size : option Z) (polls : list poll_result)
      : relay_result * list effect :=
    let commit_batch_size := default 100 commit_batch_size in
    match producer_configuration self !! "bootstrap.servers"%string with
    | None => (Propagated (KeyError "bootstrap.servers"), [])
    | Some servers =>
        match relay_loop commit_batch_size polls
                (relay_start self servers consumer_group commit_log_topic
                   synchronize_commit_group) with
        | (Raised e, st) => (Propagated e, rs_trace st)
        | (Polling, st) => (StillPolling, rs_trace st)
        | (Interrupted, st) =>
            let trace :=
              rs_trace st ++ [LogInfo "Committing offsets and closing consumer..."] in
            if dict_truth (rs_offsets st)
            then match commit_offsets (rs_offsets st) trace with
                 | (Some e, trace) => (Propagated e, trace)
                 | (None, trace) => (Returned, trace ++ [Close])
                 end
            else (Returned, trace ++ [Close])
        end
    end.

End WithCollaborators.
End Relay.

(** ** Observations on logs, traces and scripts *)

(** The log lines a batch of delivery reports gives rise to: one warning
    per failed delivery. *)
Definition warnings_of (reports : list delivery_report) : list log_record :=
  flat_map
    (fun report =>
       match fst report with
       | Some e =>
           [{| lr_level := WARNING;
               lr_format := "Could not publish event (error: %s): %r";
               lr_args := [ArgError e; ArgMessage (snd report)];
               lr_exc_info := false |}]
       | None => []
       end)
    reports.

(** The producer a call finds: the cached one, or a new one if the
    constructor gives one. *)
Definition current_producer {P : Type} `{ProducerClient P}
    (self : KafkaEventStream) (cached : option P) : exn + P :=
  match cached with
  | Some p => inr p
  | None => producer_new (producer_configuration self)
  end.

Definition is_commit (e : effect) : bool :=
  match e with Commit _ _ => true | _ => false end.

Definition is_delay (e : effect) : bool :=
  match e with Delay _ => true | _ => false end.

Definition is_cleanup (e : effect) : bool :=
  match e with Close | LogInfo _ => true | _ => false end.

(** The commits of a trace, in order. *)
Definition commits_of (trace : list effect) : list effect :=
  List.filter is_commit trace.

(** The dispatches of a trace, in order. *)
Definition dispatches_of (trace : list effect) : list effect :=
  List.filter is_delay trace.

(** What handling one message asks of the dispatcher. *)
Definition dispatch_of (parse_event_message : string -> option pydict)
    (m : kmessage) : list effect :=
  match parse_event_message (m_value m) with
  | Some payload => [Delay payload]
  | None => []
  end.

Definition is_message (r : poll_result) : bool :=
  match r with PollMessage _ => true | _ => false end.

(** The messages of a script: timeouts are not messages. *)
Definition consumed (polls : list poll_result) : Z :=
  Z.of_nat (length (List.filter is_message polls)).

Definition partition_key (m : kmessage) : string * Z :=
  (m_topic m, m_partition m).

Definition not_before (m : kmessage) (r : poll_result) : bool :=
  match r with
  | PollMessage m' =>
      if decide (partition_key m = partition_key m')
      then m_offset m <=? m_offset m'
      else true
  | _ => true
  end.

(** Each partition hands out its messages in offset order. *)
Fixpoint delivered_in_order (polls : list poll_result) : bool :=
  match polls with
  | [] => true
  | PollMessage m :: rest => forallb (not_before m) rest && delivered_in_order rest
  | _ :: rest => delivered_in_order rest
  end.

(** The offset dictionary never goes back on a key: whenever the loop has
    consumed a part [p1] of the script and later a longer part
    [p1 ++ p2], the value stored for a key after [p1] is at most the one
    stored after [p1 ++ p2]. *)
Definition tracker_non_decreasing
    (parse_event_message : string -> option pydict)
    (topic_partition_error : string -> Z -> Z -> option library_error)
    (commit_error : list effect -> list TopicPartition -> option library_error)
    (commit_batch_size : Z) (st0 : relay_state) (polls : list poll_result) : Prop :=
  forall p1 p2 rest s1 s2 key a b,
    polls = p1 ++ p2 ++ rest ->
    Relay.relay_loop parse_event_message topic_partition_error commit_error
      commit_batch_size p1 st0 = (Polling, s1) ->
    Relay.relay_loop parse_event_message topic_partition_error commit_error
      commit_batch_size (p1 ++ p2) st0
      = (Polling, s2) ->
    rs_offsets s1 !! key = Some a ->
    rs_offsets s2 !! key = Some b ->
    a <= b.

(** ** Sample collaborators

    A producer with a bounded send queue, an encoder that refuses
    datetimes, and a parser that skips empty values: enough to run the
    module on concrete inputs. *)
Module Sample.

Record queue_producer := {
    qp_capacity : nat;
    qp_queue : list (string * list byte * string);
    qp_due : list delivery_report
  }.

#[global] Instance queue_client : ProducerClient queue_producer := {|
        producer_new := fun configuration =>
      match configuration !! "bogus.property"%string with
      | Some _ =>
          inl (KafkaException
                 {| ke_code := -186;
                    ke_str := "No such configuration property: bogus.property" |})
      | None => inr {| qp_capacity := 2; qp_queue := []; qp_due := [] |}
      end;
    producer_poll := fun p =>
      (qp_due p,
       {| qp_capacity := qp_capacity p; qp_queue := qp_queue p; qp_due := [] |});
    producer_produce := fun p topic key value =>
      if (length (qp_queue p) <? qp_capacity p)%nat
      then inr {| qp_capacity := qp_capacity p;
                  qp_queue := qp_queue p ++ [(topic, key, value)];
                  qp_due := qp_due p |}
      else inl (BufferError "Local: Queue full")
  |}.

Definition dquote : string := String (Ascii.ascii_of_nat 34) EmptyString.

Definition quoted (s : string) : string := dquote +:+ s +:+ dquote.

Fixpoint render (v : pyvalue) : string :=
    match v with
    | PNone => "null"
    | PBool b => if b then "true" else "false"
    | PInt z => pretty z
    | PStr s => quoted s
    | PDatetime t => quoted (pretty t)
    | PTuple items =>
        "[" +:+
        (fix go (l : list pyvalue) : string :=
           match l with
           | [] => EmptyString
           | x :: r =>
               render x +:+
               match r with [] => EmptyString | _ :: _ => ", " +:+ go r end
           end) items +:+ "]"
    | PDict entries =>
        "{" +:+
        (fix go (l : list (string * pyvalue)) : string :=
           match l with
           | [] => EmptyString
           | (k, x) :: r =>
               quoted k +:+ ": " +:+ render x +:+
               match r with [] => EmptyString | _ :: _ => ", " +:+ go r end
           end) entries +:+ "}"
    end.

Fixpoint has_datetime (v : pyvalue) : bool :=
    match v with
    | PDatetime _ => true
    | PTuple items =>
        (fix go (l : list pyvalue) : bool :=
           match l with [] => false | x :: r => has_datetime x || go r end) items
    | PDict entries =>
        (fix go (l : list (string * pyvalue)) : bool :=
           match l with
           | [] => false
           | (_, x) :: r => has_datetime x || go r
           end) entries
    | _ => false
    end.

Definition dumps (v : pyvalue) : exn + string :=
    if has_datetime v
    then inl (TypeError "datetime is not JSON serializable")
    else inr (render v).

Definition retention (organization : Z) : pyvalue := PInt 30.

Definition parse (value : string) : option pydict :=
    if decide (value = EmptyString) then None
    else Some [("event_id"%string, PStr value)].

(** A [TopicPartition] that takes every position, and one that takes
    offsets of 64 bits only. *)
Definition any_position (topic : string) (partition offset : Z)
    : option library_error := None.

Definition int64_position (topic : string) (partition offset : Z)
    : option library_error :=
    if offset <? 2 ^ 63 then None
    else Some {| raised := OverflowError "Python int too large to convert to C long";
                 raised_is_Exception := eq_refl |}.

(** A consumer whose commits go through, and one whose broker is away. *)
Definition commit_ok (asked : list effect) (positions : list TopicPartition)
    : option library_error := None.

Definition commit_refused (asked : list effect) (positions : list TopicPartition)
    : option library_error :=
    Some {| raised := KafkaException
                        {| ke_code := -187; ke_str := "Local: All broker connections are down" |};
            raised_is_Exception := eq_refl |}.

Definition stream : KafkaEventStream :=
    init None (Some {[ "bootstrap.servers"%string := "localhost:9092"%string ]}).

Definition event_abc : Event :=
    {| project := {| organization_id := 7 |};
       project_id := 42;
       event_id := "abc";
       group_id := PInt 5;
       message := PStr "boom";
       platform := PStr "python";
       datetime := PInt 1500000000;
       data := [("tags"%string, PNone)] |}.

Definition fresh : Publisher.world (P := queue_producer) :=
    {| Publisher.w_producer := None; Publisher.w_log := [] |}.

Definition msg (partition offset : Z) (value : string) : kmessage :=
    {| m_error := None; m_topic := "events"; m_partition := partition;
       m_offset := offset; m_key := []; m_value := value |}.

Definition broken (partition offset : Z) : kmessage :=
    {| m_error := Some {| ke_code := -195; ke_str := "Broker transport failure" |};
       m_topic := "events"; m_partition := partition;
       m_offset := offset; m_key := []; m_value := EmptyString |}.

Definition start : relay_state :=
    Relay.relay_start stream "localhost:9092" "relay" "commits" "snuba".

(** A producer whose queue is full and that has one failed delivery to
    report. *)
Definition saturated : Publisher.world (P := queue_producer) :=
  {| Publisher.w_producer :=
       Some {| qp_capacity := 1;
               qp_queue := [("events"%string, [x31], "old"%string)];
               qp_due :=
                 [(Some {| ke_code := -192; ke_str := "Local: Message timed out" |},
                   msg 0 3 "lost")] |};
     Publisher.w_log := [] |}.

(** Seven messages on two partitions, the third one undecodable, with two
    timeouts in between. *)
Definition seven_messages : list poll_result :=
  [ PollMessage (msg 0 10 "a"); PollNone; PollMessage (msg 1 4 "b");
    PollMessage (msg 0 11 EmptyString); PollMessage (msg 0 12 "c");
    PollMessage (msg 1 5 "d"); PollNone; PollMessage (msg 0 13 "e");
    PollMessage (msg 1 6 "f") ].

(** A partition that is read again from an earlier offset, as after a
    rebalance. *)
Definition rewound : list poll_result :=
  [ PollMessage (msg 0 5 "a"); PollMessage (msg 0 3 "b") ].

(** An encoder that is interrupted. *)
Definition interrupted_dumps (v : pyvalue) : exn + string := inl KeyboardInterrupt.

(** A stream built with the defaults of [__init__]. *)
Definition unconfigured : KafkaEventStream := init None None.

(** A stream whose producer configuration the client refuses. *)
Definition misconfigured : KafkaEventStream :=
  init None (Some {[ "bogus.property"%string := "1"%string ]}).

(** A message at the last offset of 64 bits, then an interrupt. *)
Definition last_offset : list poll_result :=
  [ PollMessage (msg 0 (2 ^ 63 - 1) "z") ].

(** The event "abc" of project 42 as another organization would send
    it. *)
Definition event_abc_elsewhere : Event :=
  {| project := {| organization_id := 8 |};
     project_id := 42;
     event_id := "abc";
     group_id := PNone;
     message := PStr "again";
     platform := PNone;
     datetime := PInt 1500000060;
     data := [] |}.

End Sample.

(** ** Further observations *)

(** The character [:]. *)
Definition colon : Ascii.ascii := Ascii.ascii_of_nat 58.

(** No character of the string is a colon. *)
Fixpoint colon_free (s : string) : bool :=
  match s with
  | EmptyString => true
  | String c s' => negb (Ascii.eqb c colon) && colon_free s'
  end.

(** [d[k]], with [None] for a missing key. *)
Fixpoint dict_getitem (k : string) (d : pydict) : option pyvalue :=
  match d with
  | [] => None
  | (k', v) :: d' => if String.eqb k k' then Some v else dict_getitem k d'
  end.

Definition is_timeout (r : poll_result) : bool :=
  match r with PollNone => true | _ => false end.


(** The messages of a script, in order. *)
Fixpoint messages_of (polls : list poll_result) : list kmessage :=
  match polls with
  | [] => []
  | PollMessage m :: rest => m :: messages_of rest
  | _ :: rest => messages_of rest
  end.

(** The messages of a script that belong to one partition. *)
Definition on_partition (key : string * Z) (polls : list poll_result)
    : list kmessage :=
  List.filter (fun m => bool_decide (partition_key m = key)) (messages_of polls).

Definition partition_of (tp : TopicPartition) : string * Z :=
  (tp_topic tp, tp_partition tp).

Definition synchronous (e : effect) : bool :=
  match e with Commit _ asynchronous => negb asynchronous | _ => true end.

(** The position one past a message. *)
Definition position_after (m : kmessage) : TopicPartition :=
  {| tp_topic := m_topic m; tp_partition := m_partition m;
     tp_offset := m_offset m + 1 |}.

(** Every position of a commit is one past a message of the script that
    came without error. *)
Definition commits_read_positions (polls : list poll_result) (e : effect) : Prop :=
  match e with
  | Commit positions _ =>
      Forall (fun tp => exists m, In (PollMessage m) polls /\ m_error m = None /\
                                  tp = position_after m) positions
  | _ => True
  end.

Definition distinct_partitions (e : effect) : Prop :=
  match e with
  | Commit positions _ => NoDup (map partition_of positions)
  | _ => True
  end.

(** What [commit_offsets()] asks of the consumer: a commit of the whole
    dictionary, unless a position cannot be built. *)
Definition commit_effects
    (topic_partition_error : string -> Z -> Z -> option library_error)
    (offsets : gmap (string * Z) Z) : list effect :=
  match Relay.first_position_error topic_partition_error (map_to_list offsets) with
  | Some _ => []
  | None => [Commit (Relay.offsets_items offsets) false]
  end.

(** An interrupt after a part of the script that left the loop polling
    ends [relay] normally, with one final commit exactly when the
    dictionary is not empty and with the close in either case. *)
Definition closes_after_interrupt
    (parse_event_message : string -> option pydict)
    (topic_partition_error : string -> Z -> Z -> option library_error)
    (commit_error : list effect -> list TopicPartition -> option library_error)
    (self : KafkaEventStream)
    (consumer_group commit_log_topic synchronize_commit_group : string)
    (commit_batch_size : option Z) (prefix rest : list poll_result) : Prop :=
  forall servers st,
    producer_configuration self !! "bootstrap.servers"%string = Some servers ->
    Relay.relay_loop parse_event_message topic_partition_error commit_error
      (default 100 commit_batch_size) prefix
      (Relay.relay_start self servers consumer_group commit_log_topic
         synchronize_commit_group)
    = (Polling, st) ->
    Relay.relay parse_event_message topic_partition_error commit_error self
      consumer_group commit_log_topic synchronize_commit_group
      commit_batch_size (prefix ++ PollKeyboardInterrupt :: rest)
    = (Returned,
       rs_trace st ++
       [LogInfo "Committing offsets and closing consumer..."] ++
       (if decide (rs_offsets st = ∅) then []
        else [Commit (Relay.offsets_items (rs_offsets st)) false]) ++
       [Close]).

(** ** Properties of the publisher *)

Section PublisherProperties.

Context {P : Type} `{ProducerClient P}.
Variable get_event_retention : Z -> pyvalue.
Variable json_dumps : pyvalue -> exn + string.

Local Abbreviation publish := (Publisher.publish get_event_retention json_dumps).
Local Abbreviation world := (Publisher.world (P := P)).

Lemma logger_warning_run fmt args exc_info (w : world) :
  Publisher.logger_warning fmt args exc_info w
  = (inr tt,
     {| Publisher.w_producer := Publisher.w_producer w;
        Publisher.w_log := Publisher.w_log w ++
          [{| lr_level := WARNING; lr_format := fmt;
              lr_args := args; lr_exc_info := exc_info |}] |}).
Proof. reflexivity. Qed.

(** Firing the callbacks of a poll never raises, leaves the producer
    alone and appends the warnings of the failed deliveries. *)
Lemma fire_callbacks_run self reports (w : world) :
  Publisher.fire_callbacks self reports w
  = (inr tt,
     {| Publisher.w_producer := Publisher.w_producer w;
        Publisher.w_log := Publisher.w_log w ++ warnings_of reports |}).
Proof.
  revert w. induction reports as [|[error message] rest IH]; intros w.
  - destruct w as [p l]. cbn. by rewrite app_nil_r.
  - cbn [Publisher.fire_callbacks]. unfold Publisher.bind.
    destruct error as [e|]; cbn [Publisher.delivery_callback].
    + rewrite logger_warning_run, IH. cbn. by rewrite <- app_assoc.
    + unfold Publisher.ret. rewrite IH. done.
Qed.

(** The cached property gives the producer that the call finds, and
    caches it; when the constructor raises, nothing changes. *)
Lemma producer_run self (w : world) :
  Publisher.producer self w
  = match current_producer self (Publisher.w_producer w) with
    | inl e => (inl e, w)
    | inr p0 =>
        (inr p0, {| Publisher.w_producer := Some p0;
                    Publisher.w_log := Publisher.w_log w |})
    end.
Proof.
  unfold Publisher.producer. destruct w as [[p|] l];
    cbn [Publisher.w_producer Publisher.w_log current_producer]; [done|].
  by destruct (producer_new _).
Qed.

(** The world after the drain at the head of [publish]. *)
Lemma poll_producer_run self (w : world) p0 :
  current_producer self (Publisher.w_producer w) = inr p0 ->
  Publisher.poll_producer self w
  = (inr tt,
     {| Publisher.w_producer := Some (snd (producer_poll p0));
        Publisher.w_log :=
          Publisher.w_log w ++ warnings_of (fst (producer_poll p0)) |}).
Proof.
  intros Hfound. unfold Publisher.poll_producer, Publisher.bind.
  rewrite producer_run, Hfound.
  destruct (producer_poll p0) as [reports p'].
  unfold Publisher.set_producer. rewrite fire_callbacks_run. reflexivity.
Qed.


(** What [publish] does after the drain, by the outcome of the encoder and
    of the enqueue. *)
Lemma publish_run self group event is_new is_sample is_regression
    is_new_group_environment primary_hash skip_consume (w : world) p0 :
  current_producer self (Publisher.w_producer w) = inr p0 ->
  let polled := producer_poll p0 in
  let drained := Publisher.w_log w ++ warnings_of (fst polled) in
  let failed e :=
    {| lr_level := WARNING; lr_format := "Could not publish event: %s";
       lr_args := [ArgExn e]; lr_exc_info := true |} in
  let after_failure e :=
    if is_Exception e
    then {| Publisher.w_producer := Some (snd polled);
            Publisher.w_log := drained ++ [failed e] |}
    else {| Publisher.w_producer := Some (snd polled);
            Publisher.w_log := drained |} in
  publish self group event is_new is_sample is_regression
    is_new_group_environment primary_hash skip_consume w
  = match json_dumps
            (Publisher.envelope event is_new is_sample is_regression
               is_new_group_environment primary_hash
               (get_event_retention (organization_id (project event)))) with
    | inl e => (inl e, after_failure e)
    | inr encoded =>
        match producer_produce (snd polled) (publish_topic self)
                (Publisher.encode_utf8 (Publisher.message_key event)) encoded with
        | inl e => (inl e, after_failure e)
        | inr p' =>
            (inr tt, {| Publisher.w_producer := Some p';
                        Publisher.w_log := drained |})
        end
    end.
Proof.
  intros Hfound. cbv zeta. unfold Publisher.publish. cbv zeta.
  unfold Publisher.bind at 1. rewrite (poll_producer_run self w p0 Hfound).
  unfold Publisher.try_except_reraise, Publisher.bind, Publisher.lift_exn,
    Publisher.producer, Publisher.set_producer.
  cbn [Publisher.w_producer Publisher.w_log].
  destruct (json_dumps _) as [e|encoded].
  - destruct (is_Exception e); [rewrite logger_warning_run|]; reflexivity.
  - destruct (producer_produce _ _ _ _) as [e|p'].
    + destruct (is_Exception e); [rewrite logger_warning_run|]; reflexivity.
    + reflexivity.
Qed.

(** C1. A call of [publish] that has a producer, cached or newly built,
    and whose envelope is encoded and accepted hands the producer
    exactly one message: the producer left behind is the
    drained one after a single [produce] on the publish topic, with the
    UTF-8 bytes of "{project_id}:{event_id}" as key and, as value, the
    encoding of the 4-tuple (1, "insert", event record, state record); the
    event record has the ten fields group_id, event_id, organization_id,
    project_id, message, platform, datetime, data, primary_hash and
    retention_days, the state record the four flags as passed. *)
Theorem publish_produces_envelope self group event is_new is_sample
    is_regression is_new_group_environment primary_hash skip_consume
        (w : world) p0 encoded p' :
  current_producer self (Publisher.w_producer w) = inr p0 ->
  let polled := producer_poll p0 in
  json_dumps
    (PTuple
       [ PInt 1; PStr "insert";
         PDict
           [ ("group_id"%string, group_id event);
             ("event_id"%string, PStr (event_id event));
             ("organization_id"%string, PInt (organization_id (project event)));
             ("project_id"%string, PInt (project_id event));
             ("message"%string, message event);
             ("platform"%string, platform event);
             ("datetime"%string, datetime event);
             ("data"%string, PDict (dict_of_items (data event)));
             ("primary_hash"%string, primary_hash);
             ("retention_days"%string,
              get_event_retention (organization_id (project event))) ];
         PDict
           [ ("is_new"%string, PBool is_new);
             ("is_sample"%string, PBool is_sample);
             ("is_regression"%string, PBool is_regression);
             ("is_new_group_environment"%string,
              PBool is_new_group_environment) ] ])
  = inr encoded ->
  producer_produce (snd polled) (publish_topic self)
    (String.list_byte_of_string
       (pretty (project_id event) +:+ ":" +:+ event_id event))
    encoded
  = inr p' ->
  publish self group event is_new is_sample is_regression
    is_new_group_environment primary_hash skip_consume w
  = (inr tt,
     {| Publisher.w_producer := Some p';
        Publisher.w_log := Publisher.w_log w ++ warnings_of (fst polled) |}).
Proof.
    intros Hfound polled Hdumps Hproduce.
  rewrite (publish_run self group event is_new is_sample is_regression
             is_new_group_environment primary_hash skip_consume w p0 Hfound).
  change (Publisher.envelope _ _ _ _ _ _ _) with
    (PTuple
       [ PInt 1; PStr "insert";
         PDict (Publisher.event_record event primary_hash
                  (get_event_retention (organization_id (project event))));
         PDict (Publisher.state_record is_new is_sample is_regression
                  is_new_group_environment) ]).
  unfold Publisher.event_record, Publisher.state_record.
  rewrite Hdumps.
  unfold Publisher.encode_utf8, Publisher.message_key.
  fold polled. rewrite Hproduce. reflexivity.
Qed.

(** C7. When the encoder or the enqueue on the producer of the call
    raises an exception of the
    [Exception] hierarchy, [publish] logs one warning that carries it,
    with the traceback, and raises that same exception to its caller; the
    producer is left as the drain left it. *)
Theorem publish_failure_propagates self group event is_new is_sample
    is_regression is_new_group_environment primary_hash skip_consume
        (w : world) p0 e :
  current_producer self (Publisher.w_producer w) = inr p0 ->
  let polled := producer_poll p0 in
  let value :=
    Publisher.envelope event is_new is_sample is_regression
      is_new_group_environment primary_hash
      (get_event_retention (organization_id (project event))) in
  is_Exception e = true ->
  (json_dumps value = inl e \/
   exists encoded,
     json_dumps value = inr encoded /\
     producer_produce (snd polled) (publish_topic self)
       (Publisher.encode_utf8 (Publisher.message_key event)) encoded = inl e) ->
  publish self group event is_new is_sample is_regression
    is_new_group_environment primary_hash skip_consume w
  = (inl e,
     {| Publisher.w_producer := Some (snd polled);
        Publisher.w_log :=
          (Publisher.w_log w ++ warnings_of (fst polled)) ++
          [{| lr_level := WARNING; lr_format := "Could not publish event: %s";
              lr_args := [ArgExn e]; lr_exc_info := true |}] |}).
Proof.
    intros Hfound polled value Hexc Hfail.
  rewrite (publish_run self group event is_new is_sample is_regression
             is_new_group_environment primary_hash skip_consume w p0 Hfound).
  fold polled value.
  destruct Hfail as [Hdumps | (encoded & Hdumps & Hproduce)].
  - rewrite Hdumps, Hexc. reflexivity.
  - rewrite Hdumps, Hproduce, Hexc. reflexivity.
Qed.

(** C8. The delivery callback never raises and never touches the
    producer: for a failed delivery it appends one warning that carries
    the error and the message, for a successful one it changes nothing;
    so a batch of reports fired by a drain only adds warnings. *)
Theorem delivery_callback_only_logs self (w : world) :
  (forall e message,
     Publisher.delivery_callback self (Some e) message w
     = (inr tt,
        {| Publisher.w_producer := Publisher.w_producer w;
           Publisher.w_log := Publisher.w_log w ++
             [{| lr_level := WARNING;
                 lr_format := "Could not publish event (error: %s): %r";
                 lr_args := [ArgError e; ArgMessage message];
                 lr_exc_info := false |}] |})) /\
  (forall message,
     Publisher.delivery_callback self None message w = (inr tt, w)) /\
  (forall reports,
     Publisher.fire_callbacks self reports w
     = (inr tt,
        {| Publisher.w_producer := Publisher.w_producer w;
           Publisher.w_log := Publisher.w_log w ++ warnings_of reports |})).
Proof.
  split; [|split].
  - intros e message. reflexivity.
  - intros message. reflexivity.
  - intros reports. apply fire_callbacks_run.
Qed.

(** C9. [skip_consume] is never read: two calls of [publish] that differ
    only in it (given or left out) return the same result and leave the
    same producer and the same log. *)
Theorem publish_ignores_skip_consume self group event is_new is_sample
    is_regression is_new_group_environment primary_hash
    (skip_consume skip_consume' : option bool) (w : world) :
  publish self group event is_new is_sample is_regression
    is_new_group_environment primary_hash skip_consume w
  = publish self group event is_new is_sample is_regression
      is_new_group_environment primary_hash skip_consume' w.
Proof. reflexivity. Qed.

End PublisherProperties.

(** ** Properties of the relay loop *)

Section RelayProperties.

Variable parse_event_message : string -> option pydict.
Variable topic_partition_error : string -> Z -> Z -> option library_error.
Variable commit_error : list effect -> list TopicPartition -> option library_error.

Local Abbreviation commit_offsets :=
  (Relay.commit_offsets topic_partition_error commit_error).
Local Abbreviation handle_message :=
  (Relay.handle_message parse_event_message topic_partition_error commit_error).
Local Abbreviation relay_loop :=
  (Relay.relay_loop parse_event_message topic_partition_error commit_error).
Local Abbreviation relay :=
  (Relay.relay parse_event_message topic_partition_error commit_error).

(** The trace after [commit_offsets()], whether or not it raises. *)
Lemma commit_offsets_trace offsets trace :
  snd (commit_offsets offsets trace)
  = trace ++ commit_effects topic_partition_error offsets.
Proof.
  unfold Relay.commit_offsets, commit_effects.
  destruct (Relay.first_position_error _ _); cbn [snd]; by rewrite ?app_nil_r.
Qed.

(** A [commit_offsets()] that returns has issued the commit. *)
Lemma commit_offsets_returns offsets trace :
  fst (commit_offsets offsets trace) = None ->
  Relay.first_position_error topic_partition_error (map_to_list offsets) = None /\
  snd (commit_offsets offsets trace)
  = trace ++ [Commit (Relay.offsets_items offsets) false].
Proof.
  unfold Relay.commit_offsets.
  by destruct (Relay.first_position_error _ _).
Qed.

(** What leaves [commit_offsets()] is never an interrupt. *)
Lemma commit_offsets_not_interrupt offsets trace :
  fst (commit_offsets offsets trace) <> Some KeyboardInterrupt.
Proof.
  unfold Relay.commit_offsets.
  destruct (Relay.first_position_error _ _) as [[e He]|]; cbn.
  - intros [= ->]. done.
  - destruct (commit_error _ _) as [[e He]|]; cbn; [|done].
    intros [= ->]. done.
Qed.

(** The state in which the handling of a message without error ends,
    whether or not the batch test or the batch commit then raises. *)
Lemma handle_message_state k m st :
  m_error m = None ->
  snd (handle_message k m st)
  = {| rs_i := rs_i st + 1;
       rs_offsets := <[partition_key m := m_offset m + 1]> (rs_offsets st);
       rs_trace :=
         (rs_trace st ++ dispatch_of parse_event_message m) ++
         (if (k =? 0) || negb ((rs_i st + 1) mod k =? 0) then []
          else commit_effects topic_partition_error
                 (<[partition_key m := m_offset m + 1]> (rs_offsets st))) |}.
Proof.
  intros Herr. unfold Relay.handle_message, dispatch_of, partition_key.
  rewrite Herr.
  destruct (parse_event_message (m_value m)); destruct (k =? 0);
    try destruct (_ mod k =? 0); cbn [snd orb negb];
    rewrite ?commit_offsets_trace, ?app_nil_r; done.
Qed.

(** What leaves the handling of a message without error when the batch
    size is not zero: what leaves the batch commit, if one is due. *)
Lemma handle_message_outcome k m st :
  m_error m = None -> k <> 0 ->
  fst (handle_message k m st)
  = if (rs_i st + 1) mod k =? 0
    then fst (commit_offsets
                (<[partition_key m := m_offset m + 1]> (rs_offsets st))
                (rs_trace st ++ dispatch_of parse_event_message m))
    else None.
Proof.
  intros Herr Hk. unfold Relay.handle_message, dispatch_of, partition_key.
  rewrite Herr.
  destruct (Z.eqb_spec k 0) as [->|_]; [done|].
  destruct (parse_event_message (m_value m)); destruct (_ mod k =? 0);
    cbn [fst]; by rewrite ?app_nil_r.
Qed.

Lemma handle_message_not_interrupt k m st :
  fst (handle_message k m st) <> Some KeyboardInterrupt.
Proof.
  unfold Relay.handle_message. destruct (m_error m); [done|].
  destruct (k =? 0); [done|]. destruct (_ mod k =? 0); [|done].
  apply commit_offsets_not_interrupt.
Qed.

Lemma handle_message_error k m st e :
  m_error m = Some e -> handle_message k m st = (Some (PyException e), st).
Proof. intros Herr. unfold Relay.handle_message. by rewrite Herr. Qed.

(** A message that lets the loop go on had no error. *)
Lemma handle_message_none k m st st' :
  handle_message k m st = (None, st') -> m_error m = None /\ k <> 0.
Proof.
  unfold Relay.handle_message. destruct (m_error m); [done|].
  destruct (Z.eqb_spec k 0); [done|]. done.
Qed.

(** The state after a message that lets the loop go on: a batch commit
    that was due has been issued. *)
Lemma handle_message_next k m st st1 :
  handle_message k m st = (None, st1) ->
  m_error m = None /\ k <> 0 /\
  ((rs_i st + 1) mod k = 0 ->
   Relay.first_position_error topic_partition_error
     (map_to_list (<[partition_key m := m_offset m + 1]> (rs_offsets st)))
   = None) /\
  st1 = {| rs_i := rs_i st + 1;
           rs_offsets := <[partition_key m := m_offset m + 1]> (rs_offsets st);
           rs_trace :=
             (rs_trace st ++ dispatch_of parse_event_message m) ++
             (if (rs_i st + 1) mod k =? 0
              then [Commit
                      (Relay.offsets_items
                         (<[partition_key m := m_offset m + 1]> (rs_offsets st)))
                      false]
              else []) |}.
Proof.
  intros Hstep.
  destruct (handle_message_none _ _ _ _ Hstep) as [Herr Hk].
  pose proof (handle_message_outcome k m st Herr Hk) as Hout.
  pose proof (handle_message_state k m st Herr) as Hst.
  rewrite Hstep in Hout, Hst. cbn [fst snd] in Hout, Hst.
  split_and!; [done|done| |].
  - intros Hmod. rewrite Hmod in Hout. cbn [Z.eqb] in Hout.
    symmetry in Hout. by apply commit_offsets_returns in Hout as [? _].
  - rewrite Hst. destruct (Z.eqb_spec k 0); [done|]. cbn [orb].
    destruct (_ mod k =? 0); cbn [negb]; [|done].
    symmetry in Hout. apply commit_offsets_returns in Hout as [Hbuilt _].
    unfold commit_effects. by rewrite Hbuilt.
Qed.

(** The loop on a script in two parts. *)
Lemma relay_loop_app k p1 p2 st :
  relay_loop k (p1 ++ p2) st
  = match relay_loop k p1 st with
    | (Polling, s1) => relay_loop k p2 s1
    | stopped => stopped
    end.
Proof.
    revert st. induction p1 as [|r p1 IH]; intros st; [done|].
  destruct r as [|m|]; cbn [app Relay.relay_loop]; [apply IH| |done].
  destruct (handle_message k m st) as [[e|] st']; [by destruct e|apply IH].
Qed.

Lemma relay_loop_polling_app k p1 p2 st s2 :
  relay_loop k (p1 ++ p2) st = (Polling, s2) ->
  exists s1, relay_loop k p1 st = (Polling, s1) /\ relay_loop k p2 s1 = (Polling, s2).
Proof.
  rewrite relay_loop_app.
  destruct (relay_loop k p1 st) as [[]s1]; try done. eauto.
Qed.

Lemma div_succ_batch i k :
  0 <= i -> 0 < k ->
  (i + 1) / k = i / k + (if (i + 1) mod k =? 0 then 1 else 0).
Proof.
  intros Hi Hk. destruct (Z.eqb_spec ((i + 1) mod k) 0) as [H0|H0];
    Z.div_mod_to_equations; nia.
Qed.

Lemma commits_of_app t1 t2 : commits_of (t1 ++ t2) = commits_of t1 ++ commits_of t2.
Proof. apply List.filter_app. Qed.

Lemma commits_of_dispatch m : commits_of (dispatch_of parse_event_message m) = [].
Proof. unfold dispatch_of. by destruct (parse_event_message _). Qed.

(** The counter and the number of commits along a run that is still
    polling. *)
Lemma relay_loop_counts k polls st0 st :
  0 < k -> 0 <= rs_i st0 ->
  relay_loop k polls st0 = (Polling, st) ->
  rs_i st = rs_i st0 + consumed polls /\
  Z.of_nat (length (commits_of (rs_trace st)))
  = Z.of_nat (length (commits_of (rs_trace st0))) + (rs_i st / k - rs_i st0 / k).
Proof.
  intros Hk. revert st0. induction polls as [|r polls IH]; intros st0 Hi Hrun.
  - injection Hrun as <-. unfold consumed. cbn. lia.
    - destruct r as [|m|]; cbn [Relay.relay_loop] in Hrun; [by apply IH| |done].
    destruct (handle_message k m st0) as [[e|] st1] eqn:Hstep; [by destruct e|].
    destruct (handle_message_next _ _ _ _ Hstep) as (Herr & Hk0 & _ & Hst).
    assert (Hi1 : rs_i st1 = rs_i st0 + 1) by (by rewrite Hst).
    destruct (IH st1 ltac:(lia) Hrun) as [IHi IHc].
    split.
    + rewrite IHi, Hi1. unfold consumed. cbn [List.filter is_message length]. lia.
    + rewrite IHc, Hi1. rewrite Hst. cbn [rs_trace].
      rewrite !commits_of_app, commits_of_dispatch, app_nil_r, length_app.
      rewrite (div_succ_batch (rs_i st0) k Hi Hk).
      destruct (_ mod k =? 0); cbn; lia.
Qed.

Lemma dispatches_of_app t1 t2 :
  dispatches_of (t1 ++ t2) = dispatches_of t1 ++ dispatches_of t2.
Proof. apply List.filter_app. Qed.

Lemma dispatches_of_commit_effects offsets :
  dispatches_of (commit_effects topic_partition_error offsets) = [].
Proof. unfold commit_effects. by destruct (Relay.first_position_error _ _). Qed.

Lemma cleanup_of_handle_message k m st :
  List.filter is_cleanup (rs_trace (snd (handle_message k m st)))
  = List.filter is_cleanup (rs_trace st).
Proof.
  destruct (m_error m) as [e|] eqn:Herr.
  - by rewrite (handle_message_error k m st e Herr).
    - rewrite (handle_message_state k m st Herr). cbn [rs_trace].
    rewrite !List.filter_app. unfold dispatch_of, commit_effects.
    destruct (parse_event_message _); destruct (_ || _);
      try destruct (Relay.first_position_error _ _); cbn;
      by rewrite ?app_nil_r.
Qed.

(** The loop itself neither logs nor closes. *)
Lemma cleanup_of_relay_loop k polls st :
  List.filter is_cleanup (rs_trace (snd (relay_loop k polls st)))
  = List.filter is_cleanup (rs_trace st).
Proof.
  revert st. induction polls as [|r polls IH]; intros st; [done|].
  destruct r as [|m|]; cbn [Relay.relay_loop]; [apply IH| |done].
    pose proof (cleanup_of_handle_message k m st) as Hstep.
  destruct (handle_message k m st) as [[e|] st']; cbn [snd] in *;
    [by destruct e|].
  by rewrite IH.
Qed.

Lemma dict_truth_empty (offsets : gmap (string * Z) Z) :
  Relay.dict_truth offsets = if decide (offsets = ∅) then false else true.
Proof.
  unfold Relay.dict_truth. case_decide as Hempty.
  - subst. by rewrite map_to_list_empty.
  - destruct (map_to_list offsets) eqn:Hl; [|done].
    by apply map_to_list_empty_iff in Hl.
Qed.

(** Where the value under a key comes from after a stretch of the loop:
    it is the old one, or one past the offset of a message of the
    stretch on that partition. *)
Lemma relay_loop_lookup k polls st0 st key :
  relay_loop k polls st0 = (Polling, st) ->
  rs_offsets st !! key = rs_offsets st0 !! key \/
  exists m, In (PollMessage m) polls /\ partition_key m = key /\
            rs_offsets st !! key = Some (m_offset m + 1).
Proof.
  revert st0. induction polls as [|r polls IH]; intros st0 Hrun.
  - injection Hrun as <-. by left.
  - destruct r as [|m|]; cbn [Relay.relay_loop] in Hrun; [| |done].
    + destruct (IH st0 Hrun) as [?|(m' & ? & ? & ?)]; [by left|].
      right. exists m'. split_and!; [by right|done|done].
        + destruct (handle_message k m st0) as [[e|] st1] eqn:Hstep; [by destruct e|].
      destruct (handle_message_none _ _ _ _ Hstep) as [Herr _].
      pose proof (handle_message_state k m st0 Herr) as Hst.
      rewrite Hstep in Hst. cbn [snd] in Hst.
      destruct (IH st1 Hrun) as [Hsame|(m' & ? & ? & ?)].
      * rewrite Hsame, Hst. cbn [rs_offsets].
        destruct (decide (partition_key m = key)) as [<-|Hne].
        -- right. exists m. rewrite lookup_insert_eq. split_and!; [by left|done|done].
        -- left. by rewrite lookup_insert_ne.
      * right. exists m'. split_and!; [by right|done|done].
Qed.

Lemma delivered_in_order_cons r polls :
  delivered_in_order (r :: polls) = true -> delivered_in_order polls = true.
Proof.
  destruct r; cbn [delivered_in_order]; [done| |done].
  intros Hb. by apply andb_prop in Hb as [_ ?].
Qed.

(** In an ordered script a message of an earlier part does not have a
    larger offset than a later message of its partition. *)
Lemma delivered_in_order_app p1 p2 m1 m2 :
  delivered_in_order (p1 ++ p2) = true ->
  In (PollMessage m1) p1 -> In (PollMessage m2) p2 ->
  partition_key m1 = partition_key m2 ->
  m_offset m1 <= m_offset m2.
Proof.
  intros Hord H1 H2 Hkey. induction p1 as [|r p1 IH]; [done|].
  destruct H1 as [->|H1].
  - cbn [app delivered_in_order] in Hord.
    apply andb_prop in Hord as [Hall _].
    rewrite forallb_forall in Hall.
    specialize (Hall (PollMessage m2)).
    unfold not_before in Hall. rewrite decide_True in Hall by done.
    apply Z.leb_le, Hall, in_or_app. by right.
  - apply IH; [|done]. by apply (delivered_in_order_cons r).
Qed.

(** C2 (amended). Handling a message without error stores one past its
    offset under its (topic, partition); and when every partition hands
    out its messages in offset order, the value stored under a key never
    decreases along a run that starts with an empty dictionary. *)
Theorem tracker_follows_ordered_delivery k :
  (forall st m,
     m_error m = None ->
     rs_offsets (snd (handle_message k m st)) !! (m_topic m, m_partition m)
     = Some (m_offset m + 1)) /\
  (forall st0 polls,
     rs_offsets st0 = ∅ ->
     delivered_in_order polls = true ->
          tracker_non_decreasing parse_event_message topic_partition_error
       commit_error k st0 polls).
Proof.
  split.
  - intros st m Herr. rewrite (handle_message_state k m st Herr).
    cbn [rs_offsets]. apply lookup_insert_eq.
  - intros st0 polls Hempty Hord p1 p2 rest s1 s2 key a b -> Hrun1 Hrun2 Ha Hb.
    apply relay_loop_polling_app in Hrun2 as (s1' & Hrun1' & Hrun2).
    rewrite Hrun1 in Hrun1'. injection Hrun1' as <-.
    destruct (relay_loop_lookup k p1 st0 s1 key Hrun1)
      as [Hold|(m1 & Hin1 & Hkey1 & Hval1)].
    { rewrite Hold, Hempty, lookup_empty in Ha. done. }
    destruct (relay_loop_lookup k p2 s1 s2 key Hrun2)
      as [Hsame|(m2 & Hin2 & Hkey2 & Hval2)].
    { rewrite Hsame, Ha in Hb. injection Hb as <-. lia. }
    rewrite Hval1 in Ha. rewrite Hval2 in Hb.
    injection Ha as <-. injection Hb as <-.
    assert (m_offset m1 <= m_offset m2); [|lia].
    apply (delivered_in_order_app p1 (p2 ++ rest)); [done|done| |congruence].
    apply in_or_app. by left.
Qed.


(** C4 (amended). An interrupt that reaches the loop while it polls
    leaves the loop without an error: after what the loop had done,
    [relay] logs; with an empty dictionary it then closes the consumer
    and returns, without a commit; with a dictionary that is not empty it
    issues one synchronous commit of the dictionary, and closes the
    consumer and returns when that commit returns. When the final commit
    raises, or a position of it cannot be built, [relay]
    raises that exception and the consumer is not closed. *)
Theorem graceful_shutdown self consumer_group commit_log_topic
    synchronize_commit_group commit_batch_size servers prefix rest st :
  producer_configuration self !! "bootstrap.servers"%string = Some servers ->
  relay_loop (default 100 commit_batch_size) prefix
    (Relay.relay_start self servers consumer_group commit_log_topic
       synchronize_commit_group)
  = (Polling, st) ->
  let asked :=
    rs_trace st ++ [LogInfo "Committing offsets and closing consumer..."] in
  relay self consumer_group commit_log_topic synchronize_commit_group
    commit_batch_size (prefix ++ PollKeyboardInterrupt :: rest)
  = if decide (rs_offsets st = ∅)
    then (Returned, asked ++ [Close])
    else match Relay.first_position_error topic_partition_error
                 (map_to_list (rs_offsets st)) with
         | Some e => (Propagated (raised e), asked)
         | None =>
             match commit_error asked (Relay.offsets_items (rs_offsets st)) with
             | Some e =>
                 (Propagated (raised e),
                  asked ++ [Commit (Relay.offsets_items (rs_offsets st)) false])
             | None =>
                 (Returned,
                  asked ++
                  [Commit (Relay.offsets_items (rs_offsets st)) false; Close])
             end
         end.
Proof.
  intros Hcfg Hrun asked. unfold Relay.relay. rewrite Hcfg.
  rewrite relay_loop_app, Hrun. cbn [Relay.relay_loop].
  rewrite dict_truth_empty. fold asked. unfold Relay.commit_offsets.
  case_decide; [done|].
  destruct (Relay.first_position_error _ _); [done|].
  destruct (commit_error _ _); cbn; [done|].
  by rewrite <- app_assoc.
Qed.

(** C5. A message with a broker error ends [relay] with an exception that
    carries the error; the effects are those of the loop up to that
    message and nothing more: no log line, no final commit, no close. *)
Theorem broker_error_is_fatal self consumer_group commit_log_topic
    synchronize_commit_group commit_batch_size servers prefix m e rest st :
  producer_configuration self !! "bootstrap.servers"%string = Some servers ->
  relay_loop (default 100 commit_batch_size) prefix
    (Relay.relay_start self servers consumer_group commit_log_topic
       synchronize_commit_group)
  = (Polling, st) ->
  m_error m = Some e ->
  relay self consumer_group commit_log_topic synchronize_commit_group
    commit_batch_size (prefix ++ PollMessage m :: rest)
  = (Propagated (PyException e), rs_trace st) /\
  List.filter is_cleanup (rs_trace st) = [].
Proof.
  intros Hcfg Hrun Herr. split.
  - unfold Relay.relay. rewrite Hcfg, relay_loop_app, Hrun.
    cbn [Relay.relay_loop]. by rewrite (handle_message_error _ m st e Herr).
  - pose proof (cleanup_of_relay_loop (default 100 commit_batch_size) prefix
                  (Relay.relay_start self servers consumer_group commit_log_topic
                     synchronize_commit_group)) as Hclean.
    rewrite Hrun in Hclean. cbn [snd] in Hclean. by rewrite Hclean.
Qed.

(** C6. A message without error is counted and its offset is stored
    whatever the decoder says; the dispatcher is called once, with the
    payload, when the decoder gives one, and not at all when it gives
    none. *)
Theorem skip_semantics k st m :
  m_error m = None ->
  rs_i (snd (handle_message k m st)) = rs_i st + 1 /\
  rs_offsets (snd (handle_message k m st)) !! (m_topic m, m_partition m)
  = Some (m_offset m + 1) /\
  (parse_event_message (m_value m) = None ->
   dispatches_of (rs_trace (snd (handle_message k m st)))
   = dispatches_of (rs_trace st)) /\
  (forall payload,
     parse_event_message (m_value m) = Some payload ->
     dispatches_of (rs_trace (snd (handle_message k m st)))
     = dispatches_of (rs_trace st) ++ [Delay payload]).
Proof.
  intros Herr. rewrite (handle_message_state k m st Herr).
  cbn [rs_i rs_offsets rs_trace]. split_and!.
  - done.
  - apply lookup_insert_eq.
    - intros Hnone. rewrite !dispatches_of_app. unfold dispatch_of.
    rewrite Hnone. destruct (_ || _);
      rewrite ?dispatches_of_commit_effects; cbn; by rewrite ?app_nil_r.
  - intros payload Hsome. rewrite !dispatches_of_app. unfold dispatch_of.
    rewrite Hsome. destruct (_ || _);
      rewrite ?dispatches_of_commit_effects; cbn; by rewrite ?app_nil_r.
Qed.

(** C10. A message with a broker error changes nothing: the handling
    raises with the counter, the dictionary and the trace as they were,
    and the loop stops there in that same state. *)
Theorem broker_error_keeps_state k st m e rest :
  m_error m = Some e ->
  handle_message k m st = (Some (PyException e), st) /\
  relay_loop k (PollMessage m :: rest) st = (Raised (PyException e), st).
Proof.
  intros Herr. split.
  - by apply handle_message_error.
  - cbn [Relay.relay_loop]. by rewrite (handle_message_error k m st e Herr).
Qed.

End RelayProperties.

(** ** The module on concrete inputs *)

(** Scenario A: project 42, event "abc", flags (true, false, false, true)
    and primary hash "h1" on a new stream put one message on the topic
    "events", with key b"42:abc". *)
Lemma scenario_A_publish :
  Publisher.publish Sample.retention Sample.dumps Sample.stream PNone
    Sample.event_abc true false false true (PStr "h1") None Sample.fresh
  = (inr tt,
     {| Publisher.w_producer :=
          Some {| Sample.qp_capacity := 2;
                  Sample.qp_queue :=
                    [ ("events"%string,
                       [x34; x32; x3a; x61; x62; x63],
                       Sample.render
                         (PTuple
                            [ PInt 1; PStr "insert";
                              PDict
                                [ ("group_id"%string, PInt 5);
                                  ("event_id"%string, PStr "abc");
                                  ("organization_id"%string, PInt 7);
                                  ("project_id"%string, PInt 42);
                                  ("message"%string, PStr "boom");
                                  ("platform"%string, PStr "python");
                                  ("datetime"%string, PInt 1500000000);
                                  ("data"%string, PDict [("tags"%string, PNone)]);
                                  ("primary_hash"%string, PStr "h1");
                                  ("retention_days"%string, PInt 30) ];
                              PDict
                                [ ("is_new"%string, PBool true);
                                  ("is_sample"%string, PBool false);
                                  ("is_regression"%string, PBool false);
                                  ("is_new_group_environment"%string,
                                   PBool true) ] ])) ];
                  Sample.qp_due := [] |};
        Publisher.w_log := [] |}).
Proof.
  exact (publish_produces_envelope Sample.retention Sample.dumps Sample.stream
           PNone Sample.event_abc true false false true (PStr "h1") None
                      Sample.fresh _ _ _ eq_refl eq_refl eq_refl).
Defined.

(** A full send queue: [publish] raises the producer's [BufferError] and
    logs it, after the warning of the drained delivery report. *)
Lemma saturated_queue_raises :
  Publisher.publish Sample.retention Sample.dumps Sample.stream PNone
    Sample.event_abc true false false true (PStr "h1") None Sample.saturated
  = (inl (BufferError "Local: Queue full"),
     {| Publisher.w_producer :=
          Some {| Sample.qp_capacity := 1;
                  Sample.qp_queue := [("events"%string, [x31], "old"%string)];
                  Sample.qp_due := [] |};
        Publisher.w_log :=
          [ {| lr_level := WARNING;
               lr_format := "Could not publish event (error: %s): %r";
               lr_args :=
                 [ ArgError {| ke_code := -192; ke_str := "Local: Message timed out" |};
                   ArgMessage (Sample.msg 0 3 "lost") ];
               lr_exc_info := false |};
            {| lr_level := WARNING;
               lr_format := "Could not publish event: %s";
               lr_args := [ArgExn (BufferError "Local: Queue full")];
               lr_exc_info := true |} ] |}).
Proof.
  pose proof (publish_failure_propagates Sample.retention Sample.dumps
                Sample.stream PNone Sample.event_abc true false false true
                                (PStr "h1") None Sample.saturated
                {| Sample.qp_capacity := 1;
                   Sample.qp_queue := [("events"%string, [x31], "old"%string)];
                   Sample.qp_due :=
                     [(Some {| ke_code := -192;
                               ke_str := "Local: Message timed out" |},
                       Sample.msg 0 3 "lost")] |}
                (BufferError "Local: Queue full")) as Hraise.
  cbv zeta in Hraise. apply Hraise.
  - reflexivity.
  - reflexivity.
  - right. eexists. split; reflexivity.
Defined.

(** A partition read again from an earlier offset takes the stored value
    back: after offset 5 the dictionary holds 6, after offset 3 it holds
    4. *)
Lemma rewound_partition_goes_back :
  ~ tracker_non_decreasing Sample.parse Sample.any_position Sample.commit_ok
      100 Sample.start Sample.rewound.
Proof.
  intros Hmono.
  pose proof (Hmono [PollMessage (Sample.msg 0 5 "a")]
                [PollMessage (Sample.msg 0 3 "b")] []
                (snd (Relay.relay_loop
                    Sample.parse Sample.any_position Sample.commit_ok
                    100
                        [PollMessage (Sample.msg 0 5 "a")] Sample.start))
                (snd (Relay.relay_loop
                    Sample.parse Sample.any_position Sample.commit_ok
                    100 Sample.rewound
                        Sample.start))
                ("events"%string, 0) 6 4
                eq_refl eq_refl eq_refl eq_refl eq_refl) as Hle.
  lia.
Qed.

(** Two partitions read in order: the stored values only grow. *)
Lemma ordered_partitions_only_grow :
  rs_offsets
    (snd (Relay.handle_message Sample.parse Sample.any_position Sample.commit_ok
        3 (Sample.msg 0 5 "a") Sample.start))
    !! ("events"%string, 0) = Some 6 /\
  tracker_non_decreasing Sample.parse Sample.any_position Sample.commit_ok
      3 Sample.start Sample.seven_messages.
Proof.
  split.
  - exact (proj1 (tracker_follows_ordered_delivery
      Sample.parse Sample.any_position Sample.commit_ok
      3)
             Sample.start (Sample.msg 0 5 "a") eq_refl).
  - exact (proj2 (tracker_follows_ordered_delivery
      Sample.parse Sample.any_position Sample.commit_ok
      3)
             Sample.start Sample.seven_messages eq_refl eq_refl).
Defined.


(** An interrupt before any message: no commit, the consumer is closed.
    An interrupt after two messages: one commit of both partitions, then
    the close. What follows the interrupt in the script is never read.
    With a consumer that refuses the commit, the commit is asked for,
    [relay] raises and the consumer stays open. *)
Lemma interrupt_drains_and_closes :
  Relay.relay Sample.parse Sample.any_position Sample.commit_ok
      Sample.stream "relay" "commits" "snuba" None
    ([PollNone; PollNone] ++
     PollKeyboardInterrupt :: [PollMessage (Sample.msg 0 1 "late")])
  = (Returned,
     [ SynchronizedConsumer "localhost:9092" "relay" "commits" "snuba";
       Subscribe "events";
       LogInfo "Committing offsets and closing consumer...";
       Close ]) /\
  Relay.relay Sample.parse Sample.any_position Sample.commit_ok
      Sample.stream "relay" "commits" "snuba" None
    ([PollMessage (Sample.msg 0 10 "a"); PollMessage (Sample.msg 1 4 "b")] ++
     PollKeyboardInterrupt :: [])
  = (Returned,
     [ SynchronizedConsumer "localhost:9092" "relay" "commits" "snuba";
       Subscribe "events";
       Delay [("event_id"%string, PStr "a")];
       Delay [("event_id"%string, PStr "b")];
       LogInfo "Committing offsets and closing consumer...";
              Commit
         [ {| tp_topic := "events"; tp_partition := 0; tp_offset := 11 |};
           {| tp_topic := "events"; tp_partition := 1; tp_offset := 5 |} ]
         false;
       Close ]) /\
  Relay.relay Sample.parse Sample.any_position Sample.commit_refused
    Sample.stream "relay" "commits" "snuba" None
    ([PollMessage (Sample.msg 0 10 "a"); PollMessage (Sample.msg 1 4 "b")] ++
     PollKeyboardInterrupt :: [])
  = (Propagated
       (KafkaException
          {| ke_code := -187; ke_str := "Local: All broker connections are down" |}),
     [ SynchronizedConsumer "localhost:9092" "relay" "commits" "snuba";
       Subscribe "events";
       Delay [("event_id"%string, PStr "a")];
       Delay [("event_id"%string, PStr "b")];
       LogInfo "Committing offsets and closing consumer...";
       Commit
         [ {| tp_topic := "events"; tp_partition := 0; tp_offset := 11 |};
           {| tp_topic := "events"; tp_partition := 1; tp_offset := 5 |} ]
         false ]).
Proof.
  split_and!.
  - exact (graceful_shutdown Sample.parse Sample.any_position Sample.commit_ok
             Sample.stream "relay" "commits" "snuba"
             None "localhost:9092" [PollNone; PollNone]
             [PollMessage (Sample.msg 0 1 "late")] _ eq_refl eq_refl).
  - exact (graceful_shutdown Sample.parse Sample.any_position Sample.commit_ok
             Sample.stream "relay" "commits" "snuba"
             None "localhost:9092"
             [PollMessage (Sample.msg 0 10 "a"); PollMessage (Sample.msg 1 4 "b")]
             [] _ eq_refl eq_refl).
  - exact (graceful_shutdown Sample.parse Sample.any_position
             Sample.commit_refused Sample.stream "relay" "commits" "snuba"
             None "localhost:9092"
             [PollMessage (Sample.msg 0 10 "a"); PollMessage (Sample.msg 1 4 "b")]
             [] _ eq_refl eq_refl).
Defined.

(** A message at offset 2^63 - 1, then an interrupt: the position to
    commit, 2^63, does not fit a [TopicPartition], the final
    [commit_offsets()] raises and [relay] ends without closing the
    consumer. *)
Lemma final_commit_overflow_skips_close :
  ~ closes_after_interrupt Sample.parse Sample.int64_position Sample.commit_ok
      Sample.stream "relay" "commits" "snuba" None Sample.last_offset [].
Proof.
  intros Hcloses.
  specialize (Hcloses "localhost:9092"%string _ eq_refl eq_refl).
  vm_compute in Hcloses. discriminate Hcloses.
Qed.

(** A broker error after two messages: [relay] raises, the two pending
    offsets are not committed and the consumer is not closed. *)
Lemma broker_error_skips_cleanup :
  Relay.relay Sample.parse Sample.any_position Sample.commit_ok
      Sample.stream "relay" "commits" "snuba" None
    ([PollMessage (Sample.msg 0 10 "a"); PollMessage (Sample.msg 1 4 "b")] ++
     PollMessage (Sample.broken 0 11) ::
     [PollMessage (Sample.msg 0 12 "c"); PollKeyboardInterrupt])
  = (Propagated
       (PyException {| ke_code := -195; ke_str := "Broker transport failure" |}),
     [ SynchronizedConsumer "localhost:9092" "relay" "commits" "snuba";
       Subscribe "events";
       Delay [("event_id"%string, PStr "a")];
       Delay [("event_id"%string, PStr "b")] ]).
Proof.
  exact (proj1 (broker_error_is_fatal
      Sample.parse Sample.any_position Sample.commit_ok
      Sample.stream "relay"
                  "commits" "snuba" None "localhost:9092"
                  [PollMessage (Sample.msg 0 10 "a");
                   PollMessage (Sample.msg 1 4 "b")]
                  (Sample.broken 0 11) _
                  [PollMessage (Sample.msg 0 12 "c"); PollKeyboardInterrupt]
                  _ eq_refl eq_refl eq_refl)).
Defined.

(** An undecodable message is counted and stored but not dispatched; a
    decodable one is dispatched once. *)
Lemma empty_payload_is_skipped :
  (rs_i (snd (Relay.handle_message
      Sample.parse Sample.any_position Sample.commit_ok
      3
                (Sample.msg 0 11 EmptyString) Sample.start)) = 1 /\
   rs_offsets (snd (Relay.handle_message
       Sample.parse Sample.any_position Sample.commit_ok
       3
                      (Sample.msg 0 11 EmptyString) Sample.start))
     !! ("events"%string, 0) = Some 12 /\
   dispatches_of
     (rs_trace (snd (Relay.handle_message
         Sample.parse Sample.any_position Sample.commit_ok
         3
                       (Sample.msg 0 11 EmptyString) Sample.start)))
   = []) /\
  dispatches_of
    (rs_trace (snd (Relay.handle_message
        Sample.parse Sample.any_position Sample.commit_ok
        3
                      (Sample.msg 0 12 "c") Sample.start)))
  = [Delay [("event_id"%string, PStr "c")]].
Proof.
  pose proof (skip_semantics Sample.parse Sample.any_position Sample.commit_ok
      3 Sample.start
                (Sample.msg 0 11 EmptyString) eq_refl)
    as (Hi & Hoffset & Hskip & _).
  pose proof (skip_semantics Sample.parse Sample.any_position Sample.commit_ok
      3 Sample.start
                (Sample.msg 0 12 "c") eq_refl)
    as (_ & _ & _ & Hdispatch).
  split; [split; [exact Hi | split; [exact Hoffset | exact (Hskip eq_refl)]]|].
  exact (Hdispatch _ eq_refl).
Defined.

(** A message with a broker error leaves counter, dictionary and trace as
    they were. *)
Lemma broker_error_changes_nothing :
  Relay.handle_message Sample.parse Sample.any_position Sample.commit_ok
      3 (Sample.broken 0 11) Sample.start
  = (Some (PyException {| ke_code := -195; ke_str := "Broker transport failure" |}),
     Sample.start) /\
  Relay.relay_loop Sample.parse Sample.any_position Sample.commit_ok 3
    (PollMessage (Sample.broken 0 11) :: [PollMessage (Sample.msg 0 12 "c")])
    Sample.start
  = (Raised (PyException {| ke_code := -195; ke_str := "Broker transport failure" |}),
     Sample.start).
Proof.
  exact (broker_error_keeps_state
      Sample.parse Sample.any_position Sample.commit_ok
      3 Sample.start
           (Sample.broken 0 11) _ [PollMessage (Sample.msg 0 12 "c")] eq_refl).
Defined.

(** ** Further properties of the publisher *)

Section PublisherFurther.

Context {P : Type} `{ProducerClient P}.
Variable get_event_retention : Z -> pyvalue.
Variable json_dumps : pyvalue -> exn + string.

Local Abbreviation publish := (Publisher.publish get_event_retention json_dumps).
Local Abbreviation world := (Publisher.world (P := P)).

(** After a [publish] that had a producer, a producer is cached. *)
Lemma publish_caches_producer self group event is_new is_sample
    is_regression is_new_group_environment primary_hash skip_consume
    (w : world) p0 :
  current_producer self (Publisher.w_producer w) = inr p0 ->
  is_Some
    (Publisher.w_producer
       (snd (publish self group event is_new is_sample is_regression
               is_new_group_environment primary_hash skip_consume w))).
Proof.
  intros Hfound.
  rewrite (publish_run get_event_retention json_dumps self group event is_new
             is_sample is_regression is_new_group_environment primary_hash
             skip_consume w p0 Hfound).
  cbv zeta.
  destruct (json_dumps _) as [e|encoded];
    [|destruct (producer_produce _ _ _ _) as [e|p']];
    try destruct (is_Exception e); by eexists.
Qed.

(** X1. An exception outside the [Exception] hierarchy that stops the
    encoder or the enqueue on the producer of the call is not caught:
    [publish] raises it without the
    warning, with only the drained reports in the log. *)
Theorem publish_interrupt_not_logged self group event is_new is_sample
    is_regression is_new_group_environment primary_hash skip_consume
    (w : world) p0 e :
  current_producer self (Publisher.w_producer w) = inr p0 ->
  is_Exception e = false ->
  (json_dumps
     (Publisher.envelope event is_new is_sample is_regression
        is_new_group_environment primary_hash
        (get_event_retention (organization_id (project event)))) = inl e \/
   exists encoded,
     json_dumps
       (Publisher.envelope event is_new is_sample is_regression
          is_new_group_environment primary_hash
          (get_event_retention (organization_id (project event)))) = inr encoded /\
     producer_produce (snd (producer_poll p0)) (publish_topic self)
       (Publisher.encode_utf8 (Publisher.message_key event)) encoded = inl e) ->
  publish self group event is_new is_sample is_regression
    is_new_group_environment primary_hash skip_consume w
  = (inl e,
     {| Publisher.w_producer := Some (snd (producer_poll p0));
        Publisher.w_log :=
          Publisher.w_log w ++ warnings_of (fst (producer_poll p0)) |}).
Proof.
  intros Hfound Hexc Hfail.
  rewrite (publish_run get_event_retention json_dumps self group event is_new
             is_sample is_regression is_new_group_environment primary_hash
             skip_consume w p0 Hfound).
  cbv zeta.
  destruct Hfail as [Hdumps | (encoded & Hdumps & Hproduce)].
  - rewrite Hdumps, Hexc. reflexivity.
  - rewrite Hdumps, Hproduce, Hexc. reflexivity.
Qed.


(** X3. The producer is built at most once: after a call of [publish]
    that had a producer, found in the cache or built, whatever the
    outcome of its enqueue, the next call never looks at the producer
    configuration. *)
Theorem publish_builds_producer_once self configuration
    group event is_new is_sample is_regression is_new_group_environment
    primary_hash skip_consume
    group' event' is_new' is_sample' is_regression' is_new_group_environment'
    primary_hash' skip_consume' (w : world) p0 :
  current_producer self (Publisher.w_producer w) = inr p0 ->
  publish self group' event' is_new' is_sample' is_regression'
    is_new_group_environment' primary_hash' skip_consume'
    (snd (publish self group event is_new is_sample is_regression
            is_new_group_environment primary_hash skip_consume w))
  = publish {| publish_topic := publish_topic self;
               producer_configuration := configuration |}
      group' event' is_new' is_sample' is_regression'
      is_new_group_environment' primary_hash' skip_consume'
      (snd (publish self group event is_new is_sample is_regression
              is_new_group_environment primary_hash skip_consume w)).
Proof.
  intros Hfound.
  destruct (publish_caches_producer self group event is_new is_sample
              is_regression is_new_group_environment primary_hash skip_consume
              w p0 Hfound)
    as [p Hcached].
  revert Hcached. generalize (snd (publish self group event is_new is_sample
    is_regression is_new_group_environment primary_hash skip_consume w)).
  intros w1 Hcached.
  rewrite (publish_run get_event_retention json_dumps self group' event'
             is_new' is_sample' is_regression' is_new_group_environment'
             primary_hash' skip_consume' w1 p)
    by (by rewrite Hcached).
  rewrite (publish_run get_event_retention json_dumps
             {| publish_topic := publish_topic self;
                producer_configuration := configuration |}
             group' event' is_new' is_sample' is_regression'
             is_new_group_environment' primary_hash' skip_consume' w1 p)
    by (by rewrite Hcached).
  reflexivity.
Qed.

End PublisherFurther.

(** ** The message key and the copied event data *)

Section KeyAndData.

Lemma colon_free_pretty_N_go x s :
  colon_free s = true -> colon_free (pretty_N_go x s) = true.
Proof.
  revert s. induction (N.lt_wf_0 x) as [x _ IH]; intros s Hs.
  assert (x = 0 \/ 0 < x)%N as [->|Hpos] by lia.
  - by rewrite pretty_N_go_0.
  - rewrite pretty_N_go_step by done. apply IH; [by apply N.div_lt|].
    cbn [colon_free]. rewrite Hs, andb_true_r.
    unfold pretty_N_char. by repeat case_match.
Qed.

Lemma colon_free_pretty_N (x : N) : colon_free (pretty x) = true.
Proof.
  unfold pretty, pretty_N. case_decide; [done|].
  by apply colon_free_pretty_N_go.
Qed.

(** The decimal form of an integer has no colon. *)
Lemma colon_free_pretty_Z (z : Z) : colon_free (pretty z) = true.
Proof.
  destruct z as [|p|p]; unfold pretty, pretty_Z; [done| |].
  - apply colon_free_pretty_N.
  - cbn. apply colon_free_pretty_N.
Qed.

(** Two texts split at their first colon. *)
Lemma first_colon_splits a a' b b' :
  colon_free a = true -> colon_free a' = true ->
  a +:+ String colon b = a' +:+ String colon b' ->
  a = a' /\ b = b'.
Proof.
  revert a'. induction a as [|c a IH]; intros [|c' a'] Ha Ha' Heq; cbn in *.
  - by injection Heq as ->.
  - injection Heq as <- _. apply andb_prop in Ha' as [Hc _].
    by rewrite Ascii.eqb_refl in Hc.
  - injection Heq as -> _. apply andb_prop in Ha as [Hc _].
    by rewrite Ascii.eqb_refl in Hc.
  - injection Heq as -> Heq.
    apply andb_prop in Ha as [_ Ha]. apply andb_prop in Ha' as [_ Ha'].
    destruct (IH a' Ha Ha' Heq) as [-> ->]. done.
Qed.

Lemma encode_utf8_inj s s' :
  Publisher.encode_utf8 s = Publisher.encode_utf8 s' -> s = s'.
Proof.
  unfold Publisher.encode_utf8. intros Heq.
  rewrite <- (String.string_of_list_byte_of_string s),
          <- (String.string_of_list_byte_of_string s').
  by rewrite Heq.
Qed.

(** X4. The message key tells events apart: two events whose keys have
    the same bytes have the same project id and the same event id. *)
Theorem message_key_determines_event (event event' : Event) :
  Publisher.encode_utf8 (Publisher.message_key event)
  = Publisher.encode_utf8 (Publisher.message_key event') ->
  project_id event = project_id event' /\ event_id event = event_id event'.
Proof.
  intros Hbytes. apply encode_utf8_inj in Hbytes.
  unfold Publisher.message_key in Hbytes.
  change (":" +:+ event_id event) with (String colon (event_id event)) in Hbytes.
  change (":" +:+ event_id event') with (String colon (event_id event')) in Hbytes.
  apply first_colon_splits in Hbytes as [Hproject Hevent];
    [|apply colon_free_pretty_Z..].
  split; [|done]. by apply (inj pretty).
Qed.

Lemma dict_getitem_setitem k k' v d :
  dict_getitem k (dict_setitem k' v d)
  = if String.eqb k k' then Some v else dict_getitem k d.
Proof.
  induction d as [|[k0 v0] d IH]; cbn.
  - by destruct (String.eqb k k').
  - destruct (String.eqb_spec k' k0) as [->|Hne]; cbn.
    + by destruct (String.eqb k k0).
    + destruct (String.eqb_spec k k0) as [->|Hne'].
      * destruct (String.eqb_spec k0 k'); [congruence|done].
      * done.
Qed.

Lemma keys_of_setitem k v d :
  map fst (dict_setitem k v d)
  = if bool_decide (k ∈ map fst d) then map fst d else map fst d ++ [k].
Proof.
  induction d as [|[k0 v0] d IH]; cbn; [done|].
  destruct (String.eqb_spec k k0) as [->|Hne]; cbn.
  - rewrite bool_decide_true by left. done.
  - rewrite IH. destruct (decide (k ∈ map fst d)) as [Hin|Hout].
    + rewrite !bool_decide_true; [done|by right|done].
    + rewrite !bool_decide_false; [done| |done].
      intros [?|?]%elem_of_cons; done.
Qed.

Lemma dict_setitem_fresh k v d :
  k ∉ map fst d -> dict_setitem k v d = d ++ [(k, v)].
Proof.
  induction d as [|[k0 v0] d IH]; cbn; [done|].
  intros Hout. destruct (String.eqb_spec k k0) as [->|Hne].
  - exfalso. apply Hout. left.
  - rewrite IH; [done|]. intros Hin. apply Hout. by right.
Qed.

Lemma fold_setitem_keys (items acc : pydict) :
  NoDup (map fst acc) ->
  NoDup (map fst (fold_left (fun d kv => dict_setitem (fst kv) (snd kv) d)
                    items acc)).
Proof.
  revert acc. induction items as [|[k v] items IH]; intros acc Hacc; [done|].
  cbn [fold_left fst snd]. apply IH. rewrite keys_of_setitem.
  case_bool_decide as Hin; [done|].
  apply NoDup_app. split_and!; [done| |apply NoDup_singleton].
  intros x Hx ->%list_elem_of_singleton. done.
Qed.

Lemma fold_setitem_getitem k (items acc : pydict) :
  dict_getitem k (fold_left (fun d kv => dict_setitem (fst kv) (snd kv) d)
                    items acc)
  = match dict_getitem k (rev items) with
    | Some v => Some v
    | None => dict_getitem k acc
    end.
Proof.
  revert acc. induction items as [|[k0 v0] items IH]; intros acc; [done|].
  cbn [fold_left fst snd rev]. rewrite IH, dict_getitem_setitem.
  assert (Hrev : forall d, dict_getitem k (d ++ [(k0, v0)])
                 = match dict_getitem k d with
                   | Some v => Some v
                   | None => if String.eqb k k0 then Some v0 else None
                   end).
  { intros d. induction d as [|[k1 v1] d IHd]; cbn; [done|].
    by destruct (String.eqb k k1). }
  rewrite Hrev. destruct (dict_getitem k (rev items)); [done|].
  by destruct (String.eqb k k0).
Qed.

Lemma fold_setitem_fresh (items acc : pydict) :
  NoDup (map fst (acc ++ items)) ->
  fold_left (fun d kv => dict_setitem (fst kv) (snd kv) d) items acc
  = acc ++ items.
Proof.
  revert acc. induction items as [|[k v] items IH]; intros acc Hnodup.
  - by rewrite app_nil_r.
  - cbn [fold_left fst snd].
    rewrite dict_setitem_fresh.
    + rewrite IH; rewrite <- app_assoc; done.
    + rewrite map_app in Hnodup. apply NoDup_app in Hnodup as (_ & Hdisj & _).
      intros Hin. apply (Hdisj k Hin). left.
Qed.

(** X5. The copy of the event data that goes into the envelope has every
    key once, and under each key the value of the last pair with that key;
    data whose keys are already distinct is copied as it is, in order. *)
Theorem data_copy_keeps_last_binding (items : list (string * pyvalue)) :
  NoDup (map fst (dict_of_items items)) /\
  (forall k, dict_getitem k (dict_of_items items) = dict_getitem k (rev items)) /\
  (NoDup (map fst items) -> dict_of_items items = items).
Proof.
  unfold dict_of_items. split_and!.
  - apply fold_setitem_keys. constructor.
  - intros k. rewrite fold_setitem_getitem. by destruct (dict_getitem k (rev items)).
  - intros Hnodup. by rewrite fold_setitem_fresh.
Qed.

End KeyAndData.

(** ** Further properties of the relay loop *)

Section RelayFurther.

Variable parse_event_message : string -> option pydict.
Variable topic_partition_error : string -> Z -> Z -> option library_error.
Variable commit_error : list effect -> list TopicPartition -> option library_error.

Local Abbreviation commit_offsets :=
  (Relay.commit_offsets topic_partition_error commit_error).
Local Abbreviation handle_message :=
  (Relay.handle_message parse_event_message topic_partition_error commit_error).
Local Abbreviation relay_loop :=
  (Relay.relay_loop parse_event_message topic_partition_error commit_error).
Local Abbreviation relay :=
  (Relay.relay parse_event_message topic_partition_error commit_error).

Lemma mod_opp_is_zero i k : (i mod - k =? 0) = (i mod k =? 0).
Proof.
  destruct (Z.eq_dec k 0) as [->|Hk]; [done|].
  apply eq_true_iff_eq. rewrite !Z.eqb_eq.
  rewrite !Z.mod_divide by lia. apply Z.divide_opp_l.
Qed.

Lemma handle_message_opp k m st :
  handle_message (- k) m st = handle_message k m st.
Proof.
  unfold Relay.handle_message. destruct (m_error m); [done|].
  rewrite mod_opp_is_zero.
  replace (- k =? 0) with (k =? 0); [done|].
  destruct (Z.eqb_spec k 0), (Z.eqb_spec (- k) 0); done || lia.
Qed.

Lemma relay_loop_opp k polls st :
  relay_loop (- k) polls st = relay_loop k polls st.
Proof.
  revert st. induction polls as [|[|m|] polls IH]; intros st;
    cbn [Relay.relay_loop]; [done|apply IH| |done].
    rewrite handle_message_opp.
  destruct (handle_message k m st) as [[e|] st']; [by destruct e|apply IH].
Qed.

Lemma relay_loop_timeouts k n st :
  relay_loop k (repeat PollNone n) st = (Polling, st).
Proof. induction n as [|n IH]; [done|]. apply IH. Qed.

Lemma relay_loop_skips_timeouts k polls st :
  relay_loop k (List.filter (fun r => negb (is_timeout r)) polls) st
  = relay_loop k polls st.
Proof.
  revert st. induction polls as [|[|m|] polls IH]; intros st;
        cbn [List.filter is_timeout negb Relay.relay_loop]; [done|apply IH| |done].
  destruct (handle_message k m st) as [[e|] st']; [by destruct e|apply IH].
Qed.



Lemma relay_loop_interrupted k polls st :
  fst (relay_loop k polls st) = Interrupted -> In PollKeyboardInterrupt polls.
Proof.
  revert st. induction polls as [|[|m|] polls IH]; intros st;
    cbn [Relay.relay_loop]; [done| | |by left].
    - intros Hexit. right. by apply (IH st).
  - pose proof (handle_message_not_interrupt parse_event_message
                  topic_partition_error commit_error k m st) as Hnot.
    destruct (handle_message k m st) as [[e|] st']; [by destruct e|].
    intros Hexit. right. by apply (IH st').
Qed.

Lemma relay_loop_never_closes k polls self servers cg clt scg :
  ~ In Close
      (rs_trace (snd (relay_loop k polls (Relay.relay_start self servers cg clt scg)))).
Proof.
  intros Hin.
    pose proof (cleanup_of_relay_loop parse_event_message topic_partition_error
                commit_error k polls
                (Relay.relay_start self servers cg clt scg)) as Hclean.
  assert (Hfiltered : In Close
            (List.filter is_cleanup
               (rs_trace (snd (relay_loop k polls
                                 (Relay.relay_start self servers cg clt scg))))))
    by (by apply filter_In).
  by rewrite Hclean in Hfiltered.
Qed.

(** X6. Without a "bootstrap.servers" entry in the producer
    configuration, [relay] raises [KeyError] before it builds a consumer:
    nothing is polled and nothing is asked of any collaborator. *)
Theorem relay_needs_bootstrap_servers self consumer_group commit_log_topic
    synchronize_commit_group commit_batch_size polls :
  producer_configuration self !! "bootstrap.servers"%string = None ->
  relay self consumer_group commit_log_topic synchronize_commit_group
    commit_batch_size polls
  = (Propagated (KeyError "bootstrap.servers"), []).
Proof. intros Hcfg. unfold Relay.relay. by rewrite Hcfg. Qed.

(** X7. With a batch size of zero the first message without error ends
    [relay] with [ZeroDivisionError]: the message has been dispatched by
    then, but nothing is committed and the consumer is not closed. *)
Theorem zero_batch_size_raises self consumer_group commit_log_topic
    synchronize_commit_group servers timeouts m rest :
  producer_configuration self !! "bootstrap.servers"%string = Some servers ->
  m_error m = None ->
  relay self consumer_group commit_log_topic synchronize_commit_group (Some 0)
    (repeat PollNone timeouts ++ PollMessage m :: rest)
  = (Propagated ZeroDivisionError,
     [ SynchronizedConsumer servers consumer_group commit_log_topic
         synchronize_commit_group;
       Subscribe (publish_topic self) ] ++
     dispatch_of parse_event_message m).
Proof.
  intros Hcfg Herr. unfold Relay.relay. rewrite Hcfg.
  rewrite relay_loop_app, relay_loop_timeouts.
  cbn [default Relay.relay_loop]. unfold Relay.handle_message, dispatch_of.
  rewrite Herr. cbn [Z.eqb].
  by destruct (parse_event_message (m_value m)).
Qed.

(** X8. A negative batch size works as its absolute value: [relay] with
    [-k] does what it does with [k]. *)
Theorem negative_batch_size self consumer_group commit_log_topic
    synchronize_commit_group k polls :
  relay self consumer_group commit_log_topic synchronize_commit_group
    (Some (- k)) polls
  = relay self consumer_group commit_log_topic synchronize_commit_group
      (Some k) polls.
Proof.
  unfold Relay.relay.
  change (default 100 (Some (- k))) with (- k).
  change (default 100 (Some k)) with k.
  destruct (producer_configuration self !! _); [|done].
  by rewrite relay_loop_opp.
Qed.

(** X9. Timeouts leave no mark: [relay] on a script does what it does on
    the script without its timeouts. *)
Theorem timeouts_leave_no_mark self consumer_group commit_log_topic
    synchronize_commit_group commit_batch_size polls :
  relay self consumer_group commit_log_topic synchronize_commit_group
    commit_batch_size (List.filter (fun r => negb (is_timeout r)) polls)
  = relay self consumer_group commit_log_topic synchronize_commit_group
      commit_batch_size polls.
Proof.
  unfold Relay.relay.
  destruct (producer_configuration self !! _); [|done].
  by rewrite relay_loop_skips_timeouts.
Qed.

(** X10. The consumer is closed exactly when [relay] returns normally,
    and then the close is the last thing it does, once. *)
Theorem consumer_closed_iff_returned self consumer_group commit_log_topic
    synchronize_commit_group commit_batch_size polls :
  (fst (relay self consumer_group commit_log_topic synchronize_commit_group
          commit_batch_size polls) = Returned
   <-> In Close
         (snd (relay self consumer_group commit_log_topic
                 synchronize_commit_group commit_batch_size polls))) /\
  (fst (relay self consumer_group commit_log_topic synchronize_commit_group
          commit_batch_size polls) = Returned ->
   exists before,
     snd (relay self consumer_group commit_log_topic synchronize_commit_group
            commit_batch_size polls) = before ++ [Close] /\
     ~ In Close before).
Proof.
  unfold Relay.relay.
  destruct (producer_configuration self !! _) as [servers|];
    [|cbn; split; [split|]; done].
  pose proof (relay_loop_never_closes (default 100 commit_batch_size) polls self
                servers consumer_group commit_log_topic synchronize_commit_group)
    as Hopen.
    destruct (relay_loop _ _ _) as [[|e|] st]; cbn [fst snd] in *.
  - assert (Hbefore : forall extra,
              ~ In Close extra ->
              ~ In Close
                  ((rs_trace st ++
                    [LogInfo "Committing offsets and closing consumer..."]) ++
                   extra)).
    { intros extra Hextra [[?|[?|[]]]%in_app_or|?]%in_app_or; done. }
    assert (Hasked : ~ In Close
              (rs_trace st ++
               [LogInfo "Committing offsets and closing consumer..."])).
    { rewrite <- (app_nil_r (_ ++ [LogInfo _])). apply Hbefore. intros []. }
    destruct (Relay.dict_truth (rs_offsets st)).
    + pose proof (commit_offsets_trace topic_partition_error commit_error
                    (rs_offsets st)
                    (rs_trace st ++
                     [LogInfo "Committing offsets and closing consumer..."]))
        as Htrace.
      assert (Hcommitted : ~ In Close
                (snd (commit_offsets (rs_offsets st)
                        (rs_trace st ++
                         [LogInfo "Committing offsets and closing consumer..."])))).
      { rewrite Htrace. apply Hbefore. unfold commit_effects.
        destruct (Relay.first_position_error _ _); [intros []|].
        by intros [?|[]]. }
      destruct (commit_offsets _ _) as [[raised_by_commit|] trace];
        cbn [fst snd] in *.
      * split; [split|]; done.
      * split; [split; [intros _; apply in_or_app; right; by left|done]|].
        intros _. by eexists.
    + split; [split; [intros _; apply in_or_app; right; by left|done]|].
      intros _. by eexists.
  - split; [split|]; done.
  - split; [split|]; done.
Qed.

(** X11. [relay] never returns on its own: when it returns normally, an
    interrupt was in the script. *)
Theorem relay_returns_only_on_interrupt self consumer_group commit_log_topic
    synchronize_commit_group commit_batch_size polls :
  fst (relay self consumer_group commit_log_topic synchronize_commit_group
         commit_batch_size polls) = Returned ->
  In PollKeyboardInterrupt polls.
Proof.
  unfold Relay.relay.
  destruct (producer_configuration self !! _) as [servers|]; [|done].
  pose proof (relay_loop_interrupted (default 100 commit_batch_size) polls
                (Relay.relay_start self servers consumer_group commit_log_topic
                   synchronize_commit_group)) as Hint.
    destruct (relay_loop _ _ _) as [[|e|] st]; cbn [fst] in *; [|done|done].
  intros _. by apply Hint.
Qed.


End RelayFurther.

(** ** What the relay commits and dispatches *)

Section RelayInvariants.

Variable parse_event_message : string -> option pydict.
Variable topic_partition_error : string -> Z -> Z -> option library_error.
Variable commit_error : list effect -> list TopicPartition -> option library_error.

Local Abbreviation commit_offsets :=
  (Relay.commit_offsets topic_partition_error commit_error).
Local Abbreviation handle_message :=
  (Relay.handle_message parse_event_message topic_partition_error commit_error).
Local Abbreviation relay_loop :=
  (Relay.relay_loop parse_event_message topic_partition_error commit_error).
Local Abbreviation relay :=
  (Relay.relay parse_event_message topic_partition_error commit_error).

(** What [commit_offsets()] adds to the trace has a property that the
    commit of the dictionary has. *)
Lemma commit_effects_forall (Q : effect -> Prop) offsets :
  Q (Commit (Relay.offsets_items offsets) false) ->
  Forall Q (commit_effects topic_partition_error offsets).
Proof.
  intros Hcommit. unfold commit_effects.
  destruct (Relay.first_position_error _ _); repeat constructor. done.
Qed.

(** A property of the dictionary that every stored offset keeps and a
    property of effects that dispatches and commits of such dictionaries
    have hold wherever the loop stops. *)
Lemma relay_loop_invariant (I : gmap (string * Z) Z -> Prop)
    (Q : effect -> Prop) (R : kmessage -> Prop) k :
  (forall m offsets,
     R m -> m_error m = None -> I offsets ->
     I (<[partition_key m := m_offset m + 1]> offsets)) ->
    (forall payload, Q (Delay payload)) ->
  (forall offsets, I offsets -> Q (Commit (Relay.offsets_items offsets) false)) ->
  forall polls st,
    (forall m, In (PollMessage m) polls -> R m) ->
    I (rs_offsets st) -> Forall Q (rs_trace st) ->
    I (rs_offsets (snd (relay_loop k polls st))) /\
    Forall Q (rs_trace (snd (relay_loop k polls st))).
Proof.
  intros Hinsert Hdelay Hcommit.
  induction polls as [|[|m|] polls IH]; intros st HR HI HQ;
    cbn [Relay.relay_loop]; [done| | |done].
  - apply IH; [|done..]. intros m Hm. apply HR. by right.
  - destruct (m_error m) as [e|] eqn:Herr.
        { by rewrite (handle_message_error parse_event_message
                    topic_partition_error commit_error k m st e Herr). }
    pose proof (handle_message_state parse_event_message topic_partition_error
                  commit_error k m st Herr) as Hst.
    assert (HI1 : I (<[partition_key m := m_offset m + 1]> (rs_offsets st))).
    { apply Hinsert; [apply HR; by left|done..]. }
    assert (Hnext : I (rs_offsets (snd (handle_message k m st))) /\
                    Forall Q (rs_trace (snd (handle_message k m st)))).
    { rewrite Hst. cbn [rs_offsets rs_trace]. split; [done|].
      apply Forall_app. split; [apply Forall_app; split; [done|]|].
      - unfold dispatch_of. destruct (parse_event_message _); repeat constructor.
        apply Hdelay.
            - destruct (_ || _); [constructor|].
        apply commit_effects_forall. by apply Hcommit. }
    destruct (handle_message k m st) as [[e|] st1]; cbn [snd] in *;
      [by destruct e|].
    destruct Hnext as [? ?]. apply IH; [|done..].
    intros m' Hm'. apply HR. by right.
Qed.

Lemma relay_trace_invariant (I : gmap (string * Z) Z -> Prop)
    (Q : effect -> Prop) (R : kmessage -> Prop)
    self consumer_group commit_log_topic synchronize_commit_group
    commit_batch_size polls :
  (forall m offsets,
     R m -> m_error m = None -> I offsets ->
     I (<[partition_key m := m_offset m + 1]> offsets)) ->
    (forall offsets, I offsets -> Q (Commit (Relay.offsets_items offsets) false)) ->
  I ∅ ->
  (forall e, is_commit e = false -> Q e) ->
  (forall m, In (PollMessage m) polls -> R m) ->
  Forall Q
    (snd (relay self consumer_group commit_log_topic synchronize_commit_group
            commit_batch_size polls)).
Proof.
  intros Hinsert Hcommit Hempty Hother HR. unfold Relay.relay.
  destruct (producer_configuration self !! _) as [servers|]; [|constructor].
  destruct (relay_loop_invariant I Q R (default 100 commit_batch_size)
              Hinsert (fun payload => Hother (Delay payload) eq_refl) Hcommit
              polls
              (Relay.relay_start self servers consumer_group commit_log_topic
                 synchronize_commit_group) HR Hempty) as [HI HQ].
  { repeat constructor; by apply Hother. }
    destruct (relay_loop _ _ _) as [[|e|] st]; cbn [snd] in *; [|done|done].
  assert (Hasked : Forall Q
            (rs_trace st ++
             [LogInfo "Committing offsets and closing consumer..."])).
  { apply Forall_app; split; [done|]. repeat constructor. by apply Hother. }
  destruct (Relay.dict_truth _).
  - pose proof (commit_offsets_trace topic_partition_error commit_error
                  (rs_offsets st)
                  (rs_trace st ++
                   [LogInfo "Committing offsets and closing consumer..."]))
      as Htrace.
    destruct (commit_offsets _ _) as [[raised_by_commit|] trace];
      cbn [snd] in *; subst trace.
    + apply Forall_app; split; [done|].
      apply commit_effects_forall. by apply Hcommit.
    + apply Forall_app; split; [|repeat constructor; by apply Hother].
      apply Forall_app; split; [done|].
      apply commit_effects_forall. by apply Hcommit.
  - apply Forall_app; split; [done|]. repeat constructor. by apply Hother.
Qed.

Lemma partitions_of_items (offsets : gmap (string * Z) Z) :
  map partition_of (Relay.offsets_items offsets) = (map_to_list offsets).*1.
Proof.
  unfold Relay.offsets_items. rewrite map_map. apply map_ext.
  by intros [[topic partition] offset].
Qed.

(** X13. Every commit that [relay] issues is synchronous and names no
    partition twice. *)
Theorem commits_are_synchronous_and_distinct self consumer_group
    commit_log_topic synchronize_commit_group commit_batch_size polls :
  Forall (fun e => synchronous e = true /\ distinct_partitions e)
    (snd (relay self consumer_group commit_log_topic synchronize_commit_group
            commit_batch_size polls)).
Proof.
  apply (relay_trace_invariant (fun _ => True) _ (fun _ => True));
    try done.
    - intros offsets _. split; [done|].
    cbn [distinct_partitions].
    rewrite partitions_of_items. apply NoDup_fst_map_to_list.
  - by intros [].
Qed.

Lemma in_offsets_items (offsets : gmap (string * Z) Z) (tp : TopicPartition) :
  In tp (Relay.offsets_items offsets)
  <-> offsets !! (tp_topic tp, tp_partition tp) = Some (tp_offset tp).
Proof.
  unfold Relay.offsets_items. rewrite in_map_iff. split.
  - intros ([[topic partition] offset] & <- & Hin). cbn.
    by apply elem_of_map_to_list, list_elem_of_In.
  - intros Hlookup. exists ((tp_topic tp, tp_partition tp), tp_offset tp).
    split; [by destruct tp|].
    by apply list_elem_of_In, elem_of_map_to_list.
Qed.

(** X14. The list handed to [consumer.commit] is the dictionary, entry by
    entry: a position is in it exactly when the dictionary holds its
    offset under its topic and partition, and no position is listed
    twice. *)
Theorem offsets_items_are_the_dictionary (offsets : gmap (string * Z) Z) :
  (forall tp,
     In tp (Relay.offsets_items offsets)
     <-> offsets !! (tp_topic tp, tp_partition tp) = Some (tp_offset tp)) /\
  NoDup (Relay.offsets_items offsets) /\
  (length (Relay.offsets_items offsets) = size offsets)%nat.
Proof.
  split_and!.
  - apply in_offsets_items.
  - apply (NoDup_fmap_1 partition_of).
    change (NoDup (map partition_of (Relay.offsets_items offsets))).
    rewrite partitions_of_items. apply NoDup_fst_map_to_list.
  - unfold Relay.offsets_items. rewrite length_map.
    apply length_map_to_list.
Qed.

(** X15. [relay] commits only what it has read: every position of every
    commit is one past the offset of a message of the script that came
    without error, on that message's topic and partition. *)
Theorem commits_only_read_positions self consumer_group commit_log_topic
    synchronize_commit_group commit_batch_size polls :
  Forall (commits_read_positions polls)
    (snd (relay self consumer_group commit_log_topic synchronize_commit_group
            commit_batch_size polls)).
Proof.
  apply (relay_trace_invariant
           (fun offsets =>
              forall key v, offsets !! key = Some v ->
                exists m, In (PollMessage m) polls /\ m_error m = None /\
                          partition_key m = key /\ v = m_offset m + 1)
           _ (fun m => In (PollMessage m) polls)).
  - intros m offsets Hin Herr Hold key v.
    destruct (decide (partition_key m = key)) as [<-|Hne].
    + rewrite lookup_insert_eq. intros [= <-]. by exists m.
    + rewrite lookup_insert_ne by done. apply Hold.
  - intros offsets Hold. cbn [commits_read_positions Relay.commit_offsets].
    apply List.Forall_forall. intros tp Hin.
    apply in_offsets_items in Hin.
    destruct (Hold _ _ Hin) as (m & Hm & Herr & Hkey & Hoffset).
    exists m. split_and!; [done..|].
    unfold position_after. destruct tp as [topic partition offset].
    cbn in *. unfold partition_key in Hkey. by simplify_eq.
  - intros key v. by rewrite lookup_empty.
  - by intros [].
  - done.
Qed.

End RelayInvariants.

(** ** What a run leaves behind *)

Section RelayRuns.

Variable parse_event_message : string -> option pydict.
Variable topic_partition_error : string -> Z -> Z -> option library_error.
Variable commit_error : list effect -> list TopicPartition -> option library_error.

Local Abbreviation commit_offsets :=
  (Relay.commit_offsets topic_partition_error commit_error).
Local Abbreviation handle_message :=
  (Relay.handle_message parse_event_message topic_partition_error commit_error).
Local Abbreviation relay_loop :=
  (Relay.relay_loop parse_event_message topic_partition_error commit_error).
Local Abbreviation relay :=
  (Relay.relay parse_event_message topic_partition_error commit_error).

(** X16. After a run the dictionary holds, for each partition, one past
    the offset of the last message read from it, and what it held before
    for a partition from which nothing was read. *)
Theorem tracker_holds_last_read k polls st0 st key :
  relay_loop k polls st0 = (Polling, st) ->
  rs_offsets st !! key
  = match last (on_partition key polls) with
    | Some m => Some (m_offset m + 1)
    | None => rs_offsets st0 !! key
    end.
Proof.
  revert st0. induction polls as [|[|m|] polls IH]; intros st0 Hrun;
    cbn [Relay.relay_loop] in Hrun; [by injection Hrun as <-|by apply IH| |done].
  destruct (handle_message k m st0) as [[e|] st1] eqn:Hstep; [by destruct e|].
  apply handle_message_next in Hstep as (_ & _ & Hbuilt & ->).
  rewrite (IH _ Hrun). cbn [rs_offsets].
  unfold on_partition. cbn [messages_of List.filter].
  fold (on_partition key polls).
  case_bool_decide as Hkey.
  - rewrite last_cons. destruct (last (on_partition key polls)); [done|].
    rewrite <- Hkey. apply lookup_insert_eq.
  - destruct (last (on_partition key polls)); [done|].
    by apply lookup_insert_ne.
Qed.

Lemma dispatches_of_dispatch m :
  dispatches_of (dispatch_of parse_event_message m)
  = map Delay (omap (fun m => parse_event_message (m_value m)) [m]).
Proof. unfold dispatch_of. cbn. by destruct (parse_event_message _). Qed.

Lemma dispatches_of_batch_commit (b : bool) offsets :
  dispatches_of (if b then [Commit (Relay.offsets_items offsets) false] else [])
  = [].
Proof. by destruct b. Qed.

(** X17. The dispatches of a run are the payloads of its decodable
    messages, one call for each, in the order in which the messages were
    read. *)
Theorem dispatches_follow_the_script k polls st0 st :
  relay_loop k polls st0 = (Polling, st) ->
  dispatches_of (rs_trace st)
  = dispatches_of (rs_trace st0) ++
    map Delay (omap (fun m => parse_event_message (m_value m)) (messages_of polls)).
Proof.
  revert st0. induction polls as [|[|m|] polls IH]; intros st0 Hrun;
    cbn [Relay.relay_loop messages_of] in *.
  - injection Hrun as <-. cbn. by rewrite app_nil_r.
  - by apply IH.
  - destruct (handle_message k m st0) as [[e|] st1] eqn:Hstep; [by destruct e|].
    apply handle_message_next in Hstep as (_ & _ & Hbuilt & ->).
    rewrite (IH _ Hrun). cbn [rs_trace].
    rewrite !dispatches_of_app, dispatches_of_dispatch.
    rewrite dispatches_of_batch_commit.
    rewrite app_nil_r, <- app_assoc, <- map_app. do 2 f_equal.
    cbn. by destruct (parse_event_message (m_value m)).
  - done.
Qed.

(** At a batch boundary the latest commit covers the dictionary as it
    is, and its positions could be built. *)
Lemma batch_boundary_commit k polls st0 st :
  0 < k ->
  relay_loop k polls st0 = (Polling, st) ->
  (0 <= rs_i st0 /\
   (0 < rs_i st0 -> rs_offsets st0 <> ∅) /\
   (0 < rs_i st0 -> rs_i st0 mod k = 0 ->
    Relay.first_position_error topic_partition_error
      (map_to_list (rs_offsets st0)) = None /\
    last (commits_of (rs_trace st0))
    = Some (Commit (Relay.offsets_items (rs_offsets st0)) false))) ->
  (0 <= rs_i st /\
   (0 < rs_i st -> rs_offsets st <> ∅) /\
   (0 < rs_i st -> rs_i st mod k = 0 ->
    Relay.first_position_error topic_partition_error
      (map_to_list (rs_offsets st)) = None /\
    last (commits_of (rs_trace st))
    = Some (Commit (Relay.offsets_items (rs_offsets st)) false))).
Proof.
  intros Hk. revert st0. induction polls as [|[|m|] polls IH]; intros st0 Hrun Hinv;
    cbn [Relay.relay_loop] in Hrun; [by injection Hrun as <-|by apply (IH st0)| |done].
  destruct (handle_message k m st0) as [[e|] st1] eqn:Hstep; [by destruct e|].
  apply handle_message_next in Hstep as (_ & _ & Hbuilt & ->).
  apply (IH _ Hrun). cbn [rs_i rs_offsets rs_trace].
  destruct Hinv as (Hi & _ & _). split_and!; [lia| |].
    - intros _. apply insert_non_empty.
  - intros _ Hmod. split; [by apply Hbuilt|]. rewrite Hmod. cbn [Z.eqb].
    rewrite commits_of_app. cbn. by rewrite last_snoc.
Qed.

(** X18. An interrupt that comes right after a batch commit makes [relay]
    commit the same positions a second time: when the interrupt finds
    the loop polling and the number of messages
    read is a positive multiple of the batch size, the last two commits
    are equal, whether the second one then returns or raises. *)
Theorem final_commit_repeats_batch_commit self consumer_group
    commit_log_topic synchronize_commit_group k servers prefix rest :
  0 < k ->
  producer_configuration self !! "bootstrap.servers"%string = Some servers ->
  fst (relay_loop k prefix
         (Relay.relay_start self servers consumer_group commit_log_topic
            synchronize_commit_group)) = Polling ->
  0 < consumed prefix ->
  consumed prefix mod k = 0 ->
  exists earlier commit,
    commits_of
      (snd (relay self consumer_group commit_log_topic synchronize_commit_group
              (Some k) (prefix ++ PollKeyboardInterrupt :: rest)))
    = earlier ++ [commit; commit].
Proof.
    intros Hk Hcfg Hgo Hsome Hboundary.
  pose (st0 := Relay.relay_start self servers consumer_group commit_log_topic
                 synchronize_commit_group).
  fold st0 in Hgo.
  destruct (relay_loop k prefix st0) as [exit st] eqn:Hrun.
  cbn [fst] in Hgo. subst exit.
  destruct (relay_loop_counts parse_event_message topic_partition_error
              commit_error k prefix st0 st Hk
              (Z.le_refl 0) Hrun) as [Hi _].
  change (rs_i st0) with 0 in Hi.
  destruct (batch_boundary_commit k prefix st0 st Hk Hrun) as (_ & Hfull & Hlast).
  { cbn. split_and!; [lia|lia|lia]. }
  assert (Hi' : rs_i st = consumed prefix) by lia.
  rewrite <- Hi' in Hsome, Hboundary.
    specialize (Hfull Hsome).
  destruct (Hlast Hsome Hboundary) as [Hbuilt Hlatest].
  apply last_Some in Hlatest as [earlier Hearlier].
  exists earlier, (Commit (Relay.offsets_items (rs_offsets st)) false).
  unfold Relay.relay. rewrite Hcfg.
  change (default 100 (Some k)) with k.
  fold st0. rewrite relay_loop_app, Hrun. cbn [Relay.relay_loop snd].
  rewrite dict_truth_empty, decide_False by done.
  unfold Relay.commit_offsets. rewrite Hbuilt.
  destruct (commit_error _ _); cbn [fmap option_fmap option_map snd];
    rewrite !commits_of_app, Hearlier; cbn;
    by rewrite ?app_nil_r, <- app_assoc.
Qed.

End RelayRuns.

(** ** The further properties on concrete inputs *)

(** An interrupt during the encoding goes through [publish] without a
    log line. *)
Lemma interrupted_encoder_not_logged :
  Publisher.publish Sample.retention Sample.interrupted_dumps Sample.stream
    PNone Sample.event_abc true false false true (PStr "h1") None Sample.fresh
  = (inl KeyboardInterrupt,
     {| Publisher.w_producer :=
          Some {| Sample.qp_capacity := 2; Sample.qp_queue := [];
                  Sample.qp_due := [] |};
        Publisher.w_log := [] |}).
Proof.
  exact (publish_interrupt_not_logged Sample.retention Sample.interrupted_dumps
           Sample.stream PNone Sample.event_abc true false false true
                      (PStr "h1") None Sample.fresh
           {| Sample.qp_capacity := 2; Sample.qp_queue := [];
              Sample.qp_due := [] |}
           KeyboardInterrupt eq_refl eq_refl (or_introl eq_refl)).
Defined.


(** After a first call on a new stream, a second call gives the same
    with the configuration that the client refuses. *)
Lemma second_call_skips_the_constructor :
  Publisher.publish Sample.retention Sample.dumps Sample.stream PNone
    Sample.event_abc_elsewhere false false false false PNone None
    (snd (Publisher.publish Sample.retention Sample.dumps Sample.stream PNone
            Sample.event_abc true false false true (PStr "h1") None
            Sample.fresh))
  = Publisher.publish Sample.retention Sample.dumps
      {| publish_topic := publish_topic Sample.stream;
         producer_configuration := producer_configuration Sample.misconfigured |}
      PNone Sample.event_abc_elsewhere false false false false PNone None
      (snd (Publisher.publish Sample.retention Sample.dumps Sample.stream PNone
              Sample.event_abc true false false true (PStr "h1") None
              Sample.fresh)).
Proof.
  exact (publish_builds_producer_once Sample.retention Sample.dumps
           Sample.stream (producer_configuration Sample.misconfigured)
           PNone Sample.event_abc true false false true (PStr "h1") None
           PNone Sample.event_abc_elsewhere false false false false PNone None
           Sample.fresh _ eq_refl).
Defined.

(** Two events with the key "42:abc" agree on project and event id. *)
Lemma same_key_same_event :
  project_id Sample.event_abc = project_id Sample.event_abc_elsewhere /\
  event_id Sample.event_abc = event_id Sample.event_abc_elsewhere.
Proof.
  exact (message_key_determines_event Sample.event_abc
           Sample.event_abc_elsewhere eq_refl).
Defined.

(** Data with distinct keys is copied as it is. *)
Lemma distinct_data_copied :
  dict_of_items [("tags"%string, PNone); ("user"%string, PStr "me")]
  = [("tags"%string, PNone); ("user"%string, PStr "me")].
Proof.
  apply (proj2 (proj2 (data_copy_keeps_last_binding
                         [("tags"%string, PNone); ("user"%string, PStr "me")]))).
  apply (bool_decide_unpack _). reflexivity.
Defined.

(** A stream built with the defaults cannot relay. *)
Lemma unconfigured_stream_cannot_relay :
  Relay.relay Sample.parse Sample.any_position Sample.commit_ok
      Sample.unconfigured "relay" "commits" "snuba" None
    Sample.seven_messages
  = (Propagated (KeyError "bootstrap.servers"), []).
Proof.
  exact (relay_needs_bootstrap_servers
      Sample.parse Sample.any_position Sample.commit_ok
      Sample.unconfigured "relay"
           "commits" "snuba" None Sample.seven_messages eq_refl).
Defined.

(** Batch size zero: the first message is dispatched, then [relay]
    raises. *)
Lemma zero_batch_size_on_first_message :
  Relay.relay Sample.parse Sample.any_position Sample.commit_ok
      Sample.stream "relay" "commits" "snuba" (Some 0)
    (repeat PollNone 2 ++
     PollMessage (Sample.msg 0 10 "a") :: [PollMessage (Sample.msg 0 11 "b")])
  = (Propagated ZeroDivisionError,
     [ SynchronizedConsumer "localhost:9092" "relay" "commits" "snuba";
       Subscribe "events";
       Delay [("event_id"%string, PStr "a")] ]).
Proof.
  exact (zero_batch_size_raises
      Sample.parse Sample.any_position Sample.commit_ok
      Sample.stream "relay" "commits"
           "snuba" "localhost:9092" 2%nat (Sample.msg 0 10 "a")
           [PollMessage (Sample.msg 0 11 "b")] eq_refl eq_refl).
Defined.

(** A run that returned had an interrupt in its script. *)
Lemma returned_run_was_interrupted :
  In PollKeyboardInterrupt (Sample.seven_messages ++ [PollKeyboardInterrupt]).
Proof.
  exact (relay_returns_only_on_interrupt
      Sample.parse Sample.any_position Sample.commit_ok
      Sample.stream "relay"
           "commits" "snuba" (Some 3)
           (Sample.seven_messages ++ [PollKeyboardInterrupt]) eq_refl).
Defined.


(** After the seven messages partition 0 stands at 14, partition 1 at 7,
    and partition 2, never read, has no entry. *)
Lemma seven_messages_last_read :
  rs_offsets (snd (Relay.relay_loop
      Sample.parse Sample.any_position Sample.commit_ok
      3 Sample.seven_messages
                     Sample.start)) !! ("events"%string, 0) = Some 14 /\
  rs_offsets (snd (Relay.relay_loop
      Sample.parse Sample.any_position Sample.commit_ok
      3 Sample.seven_messages
                     Sample.start)) !! ("events"%string, 1) = Some 7 /\
  rs_offsets (snd (Relay.relay_loop
      Sample.parse Sample.any_position Sample.commit_ok
      3 Sample.seven_messages
                     Sample.start)) !! ("events"%string, 2) = None.
Proof.
  split_and!.
  - exact (tracker_holds_last_read
      Sample.parse Sample.any_position Sample.commit_ok
      3 Sample.seven_messages
             Sample.start _ ("events"%string, 0) eq_refl).
  - exact (tracker_holds_last_read
      Sample.parse Sample.any_position Sample.commit_ok
      3 Sample.seven_messages
             Sample.start _ ("events"%string, 1) eq_refl).
  - exact (tracker_holds_last_read
      Sample.parse Sample.any_position Sample.commit_ok
      3 Sample.seven_messages
             Sample.start _ ("events"%string, 2) eq_refl).
Defined.

(** The seven messages give six dispatches, in the order read; the
    undecodable third message gives none. *)
Lemma seven_messages_dispatched_in_order :
  dispatches_of
    (rs_trace (snd (Relay.relay_loop
        Sample.parse Sample.any_position Sample.commit_ok
        3 Sample.seven_messages
                      Sample.start)))
  = [ Delay [("event_id"%string, PStr "a")];
      Delay [("event_id"%string, PStr "b")];
      Delay [("event_id"%string, PStr "c")];
      Delay [("event_id"%string, PStr "d")];
      Delay [("event_id"%string, PStr "e")];
      Delay [("event_id"%string, PStr "f")] ].
Proof.
  exact (dispatches_follow_the_script
      Sample.parse Sample.any_position Sample.commit_ok
      3 Sample.seven_messages
           Sample.start _ eq_refl).
Defined.

(** With batches of seven, an interrupt after the seventh message commits
    the same positions twice. *)
Lemma interrupt_after_batch_commits_twice :
  exists earlier commit,
    commits_of
      (snd (Relay.relay Sample.parse Sample.any_position Sample.commit_ok
          Sample.stream "relay" "commits" "snuba"
              (Some 7) (Sample.seven_messages ++ PollKeyboardInterrupt :: [])))
    = earlier ++ [commit; commit].
Proof.
  apply (final_commit_repeats_batch_commit
      Sample.parse Sample.any_position Sample.commit_ok
      Sample.stream "relay"
           "commits" "snuba" 7 "localhost:9092" Sample.seven_messages []);
    reflexivity.
Defined.
